(** * Multi-Agent Research Assistant: the tool-routing control loop

    A shallow embedding of [src/backend/graph_functions.py],
    [src/backend/research_graph.py], [src/backend/state.py] and the
    [/research] handler of [src/backend/main.py].

    - Python strings are [String.string]; Python exceptions are the
      [Raise] case of [outcome].
    - The LLM, the Pinecone client, the web-search agent and the body of
      the Snowflake pipeline are external collaborators: they are fields
      of an environment [Env] and every theorem quantifies over them.
    - A Python [set] is represented by its elements in a canonical order;
      its iteration order ([list(s)], [next(iter(s))]) is the field
      [set_iter] of the environment, assumed to be a permutation. *)

From Stdlib Require Import String Ascii List Bool Arith Lia Permutation.
Import ListNotations.
Open Scope string_scope.

(** ** Python values and helpers *)

(** A Python computation either returns a value or raises an exception
    carrying its message. *)
Inductive outcome (A : Type) : Type :=
| Ok (a : A)
| Raise (msg : string).
Arguments Ok {A} a.
Arguments Raise {A} msg.

Definition nl : string := String "010"%char EmptyString.

(** [str.isspace] on ASCII characters; also the class [\s] of [re]. *)
Definition is_py_space (c : ascii) : bool :=
  let n := nat_of_ascii c in
  (Nat.leb 9 n && Nat.leb n 13) || (Nat.leb 28 n && Nat.leb n 32).

Definition py_lower_char (c : ascii) : ascii :=
  let n := nat_of_ascii c in
  if Nat.leb 65 n && Nat.leb n 90 then ascii_of_nat (n + 32) else c.

(** [str.lower] (ASCII part). *)
Fixpoint py_lower (s : string) : string :=
  match s with
  | EmptyString => EmptyString
  | String c s' => String (py_lower_char c) (py_lower s')
  end.

Fixpoint py_lstrip (s : string) : string :=
  match s with
  | EmptyString => EmptyString
  | String c s' => if is_py_space c then py_lstrip s' else s
  end.

Definition string_rev (s : string) : string :=
  string_of_list_ascii (rev (list_ascii_of_string s)).

(** [str.strip()]. *)
Definition py_strip (s : string) : string :=
  string_rev (py_lstrip (string_rev (py_lstrip s))).

(** [sub in s] for strings. *)
Fixpoint contains (sub s : string) : bool :=
  if String.prefix sub s then true
  else match s with
       | EmptyString => false
       | String _ s' => contains sub s'
       end.

(** [x in l] for a list (or a set) of strings. *)
Definition mem (x : string) (l : list string) : bool :=
  existsb (String.eqb x) l.

(** [str(n)] for a natural number. *)
Fixpoint digits_of (fuel n : nat) (acc : string) : string :=
  match fuel with
  | O => acc
  | S f =>
      let d := String (ascii_of_nat (48 + n mod 10)) EmptyString in
      if Nat.ltb n 10 then d ++ acc else digits_of f (n / 10) (d ++ acc)
  end.
Definition nat_to_string (n : nat) : string := digits_of (S n) n "".

(** [sep.join(l)]. *)
Fixpoint py_join (sep : string) (l : list string) : string :=
  match l with
  | [] => ""
  | [x] => x
  | x :: r => x ++ sep ++ py_join sep r
  end.

(** [s.split(sep)] for a non-empty separator: cut at the first
    occurrence, then split the remainder. *)
Fixpoint split_first (sep s : string) : option (string * string) :=
  if String.prefix sep s
  then Some ("", substring (String.length sep) (String.length s) s)
  else match s with
       | EmptyString => None
       | String c s' =>
           match split_first sep s' with
           | Some (a, b) => Some (String c a, b)
           | None => None
           end
       end.

Fixpoint py_split_fuel (fuel : nat) (sep s : string) : list string :=
  match fuel with
  | O => [s]
  | S f =>
      match split_first sep s with
      | Some (a, b) => a :: py_split_fuel f sep b
      | None => [s]
      end
  end.
Definition py_split (sep s : string) : list string :=
  py_split_fuel (S (String.length s)) sep s.

(** ** Data model: [state.py] *)

(** [metadata_filters] / [year_quarter_dict]: year -> list of quarters. *)
Definition Filters := list (string * list string).

(** The two shapes of [tool_input] built by the code:
    [{"query", "metadata_filters"}] (oracle) and [{"query"}] (finalizer). *)
Inductive ToolInput : Type :=
| TIQueryFilters (query : string) (filters : Filters)
| TIQuery (query : string).

Definition ti_query (ti : ToolInput) : string :=
  match ti with TIQueryFilters q _ => q | TIQuery q => q end.
Definition ti_filters (ti : ToolInput) : Filters :=
  match ti with TIQueryFilters _ f => f | TIQuery _ => [] end.

(** [class AgentAction]. *)
Record AgentAction : Type := mkAction {
  tool : string;
  tool_input : ToolInput;
  log : string
}.

(** [class ResearchState] (the [chat_history] field is never read) plus
    the [output] key written by the finalizer. *)
Record ResearchState : Type := mkState {
  input : string;
  mode : string;
  intermediate_steps : list AgentAction;
  metadata_filters : Filters;
  output : option string
}.

Definition set_steps (st : ResearchState) (l : list AgentAction) : ResearchState :=
  {| input := input st; mode := mode st; intermediate_steps := l;
     metadata_filters := metadata_filters st; output := output st |}.

(** [{"intermediate_steps": state["intermediate_steps"] + [a]}]. *)
Definition append_step (st : ResearchState) (a : AgentAction) : ResearchState :=
  set_steps st (intermediate_steps st ++ [a])%list.

(** ** External collaborators *)

(** The prompts handed to the LLM, as the data they are formatted from. *)
Inductive Prompt : Type :=
| OraclePrompt (query : string)
| NextToolPrompt (query : string) (used_tools unused_tools : list string)
| FinalPrompt (mode query snowflake_result rag_result web_result : string).

(** One news or trend item of [WebSearchAgent]. *)
Record SearchItem : Type := mkItem {
  item_title : string;
  item_link : string;
  item_date : string;
  item_source : string;
  item_snippet : string
}.

(** The dictionary returned by [WebSearchAgent.run]. *)
Inductive WebRunResult : Type :=
| WebStatusError (error : string)
| WebStatusOk (news trends : list SearchItem) (insights : string).

(** One chart of [create_and_save_graph]. *)
Record Viz : Type := mkViz {
  viz_title : string;
  viz_url : string;
  viz_columns : list string
}.

(** The [result] dictionary of [generate_snowflake_insights]. *)
Record SnowResult : Type := mkSnow {
  summary : string;
  visualizations : list Viz
}.

Record Env : Type := mkEnv {
  (** [llm.invoke(prompt).content]; may depend on the run so far. *)
  llm : list AgentAction -> Prompt -> string;
  (** iteration order of a Python set given by its canonical list *)
  set_iter : list string -> list string;
  (** [AgenticResearchAssistant()] *)
  rag_ctor : outcome unit;
  (** [research_assistant.search_pinecone_db(query, filters, top_k)] *)
  pinecone_search : string -> Filters -> nat -> outcome string;
  (** [WebSearchAgent().run(query)] *)
  web_run : string -> outcome WebRunResult;
  (** the body of the [try] of [generate_snowflake_insights] *)
  snowflake_body : string -> Filters -> outcome SnowResult
}.

(** A Python set iterates over exactly its elements. *)
Definition set_iter_ok (env : Env) : Prop :=
  forall l, Permutation (set_iter env l) l.

(** ** [run_oracle] *)

(** [all_tools = {"web_search", "pinecone", "snowflake"}] in canonical order. *)
Definition all_tools : list string := ["pinecone"; "snowflake"; "web_search"].

(** [{tool for tool in used_tools if tool in all_tools}]. *)
Definition used_real_tools (used : list string) : list string :=
  filter (fun t => mem t used) all_tools.

(** [all_tools - used_real_tools]. *)
Definition unused_tools_of (used : list string) : list string :=
  filter (fun t => negb (mem t (used_real_tools used))) all_tools.

(** The "Normalize the response" cascade. *)
Definition normalize (chosen_tool : string) : string :=
  if contains "pinecone" chosen_tool then "pinecone"
  else if contains "web" chosen_tool then "web_search"
  else if contains "snow" chosen_tool then "snowflake"
  else "final_answer".

Section Graph.

Variable env : Env.

(** [llm.invoke(...).content.strip().lower()]. *)
Definition ask (steps : list AgentAction) (p : Prompt) : string :=
  py_lower (py_strip (llm env steps p)).

(** [if chosen_tool not in unused_tools: chosen_tool = next(iter(unused_tools))]. *)
Definition validate_unused (unused : list string) (chosen : string) : outcome string :=
  if mem chosen unused then Ok chosen
  else match set_iter env unused with
       | x :: _ => Ok x
       | [] => Raise "StopIteration"
       end.

(** The value of [chosen_tool] before normalization; an unknown mode
    leaves it unbound. *)
Definition oracle_choice (st : ResearchState) : outcome string :=
  let steps := intermediate_steps st in
  let used_tools := map tool steps in
  if mem (mode st) ["pinecone"; "web_search"; "snowflake"] then
    match used_tools with
    | [] => Ok (mode st)
    | _ => Ok "final_answer"
    end
  else if String.eqb (mode st) "combined" then
    let used_real := used_real_tools used_tools in
    match used_tools with
    | [] => Ok (ask steps (OraclePrompt (input st)))
    | _ =>
        if Nat.ltb (List.length used_real) 3 then
          let unused := unused_tools_of used_tools in
          validate_unused unused
            (ask steps (NextToolPrompt (input st) (set_iter env used_real)
                                        (set_iter env unused)))
        else Ok "final_answer"
    end
  else Raise "UnboundLocalError: chosen_tool".

(** The selection Action appended by the oracle. *)
Definition selection_action (st : ResearchState) (t : string) : AgentAction :=
  mkAction t (TIQueryFilters (input st) (metadata_filters st))
           ("Selected " ++ t ++ " based on mode: " ++ mode st).

(** [run_oracle(state)]. *)
Definition run_oracle (st : ResearchState) : outcome ResearchState :=
  match oracle_choice st with
  | Raise m => Raise m
  | Ok c => Ok (append_step st (selection_action st (normalize c)))
  end.

End Graph.

(** ** [router] *)

(** The value of [state["intermediate_steps"]]: a list, or anything else. *)
Inductive StepsValue : Type :=
| StepsList (l : list AgentAction)
| StepsOther.

(** [tool_to_node.get(latest_tool)]; [None] is Python's [None]. *)
Definition tool_to_node (t : string) : option string :=
  if String.eqb t "pinecone" then Some "rag_search"
  else if String.eqb t "web_search" then Some "web_search"
  else if String.eqb t "snowflake" then Some "snowflake_search"
  else if String.eqb t "final_answer" then Some "final_answer"
  else None.

Definition dummy_action : AgentAction := mkAction "" (TIQuery "") "".

(** [router(state)], as a function of [state["intermediate_steps"]]. *)
Definition router (v : StepsValue) : option string :=
  match v with
  | StepsList [] | StepsOther => Some "final_answer"
  | StepsList l => tool_to_node (tool (last l dummy_action))
  end.

(** ** Tool adapter nodes *)

Section Nodes.

Variable env : Env.

(** [state["intermediate_steps"][-1].tool_input]. *)
Definition last_tool_input (st : ResearchState) : outcome ToolInput :=
  match rev (intermediate_steps st) with
  | a :: _ => Ok (tool_input a)
  | [] => Raise "IndexError: list index out of range"
  end.

(** [rag_search(state)]: the assistant is built before the [try]. *)
Definition rag_search (st : ResearchState) : outcome ResearchState :=
  match last_tool_input st with
  | Raise m => Raise m
  | Ok ti =>
      match rag_ctor env with
      | Raise m => Raise m
      | Ok _ =>
          let result :=
            match pinecone_search env (ti_query ti) (ti_filters ti) 20 with
            | Ok r => r
            | Raise e => "Error searching Pinecone: " ++ e
            end in
          Ok (append_step st (mkAction "rag_search_result" ti result))
      end
  end.

Fixpoint format_news (i : nat) (items : list SearchItem) : string :=
  match items with
  | [] => ""
  | it :: r =>
      "**" ++ nat_to_string i ++ ". [" ++ item_title it ++ "](" ++ item_link it ++ ")**" ++ nl
      ++ "📅 " ++ item_date it ++ " | 🔗 [" ++ item_source it ++ "](" ++ item_link it ++ ")" ++ nl
      ++ "Summary: " ++ item_snippet it ++ nl ++ nl
      ++ format_news (S i) r
  end.

Fixpoint format_trends (i : nat) (items : list SearchItem) : string :=
  match items with
  | [] => ""
  | it :: r =>
      "**" ++ nat_to_string i ++ ". [" ++ item_title it ++ "](" ++ item_link it ++ ")**" ++ nl
      ++ "Source: [" ++ item_source it ++ "](" ++ item_link it ++ ")" ++ nl
      ++ "Key Points: " ++ item_snippet it ++ nl ++ nl
      ++ format_trends (S i) r
  end.

(** The text built from a successful [WebSearchAgent.run]. *)
Definition format_web (news trends : list SearchItem) (insights : string) : string :=
  "### Recent News and Analysis" ++ nl ++ nl
  ++ (match news with [] => "" | _ => "#### 📰 Latest News" ++ nl ++ nl ++ format_news 1 news end)
  ++ (match trends with [] => "" | _ => "#### 📈 Market Trends & Analysis" ++ nl ++ nl ++ format_trends 1 trends end)
  ++ (match insights with "" => "" | _ => "#### 🔍 Analysis" ++ nl ++ nl ++ insights ++ nl ++ nl end).

(** [web_search(state)]. *)
Definition web_search (st : ResearchState) : outcome ResearchState :=
  match last_tool_input st with
  | Raise m => Raise m
  | Ok ti =>
      let result :=
        match web_run env (ti_query ti) with
        | Raise e => "Error searching web: " ++ e
        | Ok (WebStatusError e) => "Error in web search: " ++ e
        | Ok (WebStatusOk news trends insights) => format_web news trends insights
        end in
      Ok (append_step st (mkAction "web_search_result" ti result))
  end.

(** [generate_snowflake_insights(query, year_quarter_dict)]: its own
    [except] turns any exception into a summary. *)
Definition generate_snowflake_insights (query : string) (f : Filters) : SnowResult :=
  match snowflake_body env query f with
  | Ok r => r
  | Raise e => mkSnow ("Error generating insights: " ++ e) []
  end.

Definition viz_markdown (v : Viz) : string :=
  "![" ++ viz_title v ++ "](" ++ viz_url v ++ ")" ++ nl ++ nl
  ++ "*" ++ viz_title v ++ " - " ++ py_join ", " (viz_columns v) ++ "*" ++ nl ++ nl.

Definition snowflake_markdown (r : SnowResult) : string :=
  "## Financial Data Analysis" ++ nl ++ nl ++ summary r ++ nl ++ nl
  ++ match visualizations r with
     | [] => ""
     | vs => nl ++ "## Visualizations" ++ nl ++ nl ++ String.concat "" (map viz_markdown vs)
     end.

(** [snowflake_search(state)]; nothing in its [try] block raises once
    [generate_snowflake_insights] has returned (both of its results carry
    the [summary] and [visualizations] keys). *)
Definition snowflake_search (st : ResearchState) : outcome ResearchState :=
  match last_tool_input st with
  | Raise m => Raise m
  | Ok ti =>
      let r := generate_snowflake_insights (ti_query ti) (ti_filters ti) in
      Ok (append_step st (mkAction "snowflake_search_result" ti (snowflake_markdown r)))
  end.

End Nodes.

(** ** The two regular expressions of [generate_final_answer]

    Both are matched with Python [re] semantics: leftmost match, lazy
    groups [(.*?)] tried shortest first, [.] excluding only a newline,
    and [re.findall] resuming after each match. *)

Definition is_nl (c : ascii) : bool := Ascii.eqb c "010"%char.

(** Consume a literal prefix. *)
Fixpoint strip_lit (lit s : string) : option string :=
  match lit with
  | EmptyString => Some s
  | String c l' =>
      match s with
      | String d s' => if Ascii.eqb c d then strip_lit l' s' else None
      | EmptyString => None
      end
  end.

Module LinkRe.
(** [r'\[(.*?)\]\((https?://[^\s\)]+)\)'] *)

Definition url_char (c : ascii) : bool :=
  negb (is_py_space c || Ascii.eqb c ")"%char).

(** The greedy run [[^\s\)]+] (without its length check). *)
Fixpoint span_url (s : string) : string * string :=
  match s with
  | EmptyString => ("", "")
  | String c s' =>
      if url_char c then let (a, b) := span_url s' in (String c a, b)
      else ("", s)
  end.

(** [https?://]: the greedy [s?] tries the [s] first. *)
Definition proto (s : string) : option (string * string) :=
  match strip_lit "https://" s with
  | Some s2 => Some ("https://", s2)
  | None =>
      match strip_lit "http://" s with
      | Some s2 => Some ("http://", s2)
      | None => None
      end
  end.

(** [\]\((https?://[^\s\)]+)\)] at the start of [s]: the url group and
    the remaining text. *)
Definition tail (s : string) : option (string * string) :=
  match strip_lit "](" s with
  | None => None
  | Some s1 =>
      match proto s1 with
      | None => None
      | Some (p, s2) =>
          let (a, s3) := span_url s2 in
          match a, s3 with
          | EmptyString, _ => None
          | _, String c s4 => if Ascii.eqb c ")"%char then Some (p ++ a, s4) else None
          | _, EmptyString => None
          end
      end
  end.

(** The lazy title group: shortest title first. *)
Fixpoint scan (s : string) : option (string * string * string) :=
  match tail s with
  | Some (u, r) => Some ("", u, r)
  | None =>
      match s with
      | EmptyString => None
      | String c s' =>
          if is_nl c then None
          else match scan s' with
               | Some (t, u, r) => Some (String c t, u, r)
               | None => None
               end
      end
  end.

Definition match_at (s : string) : option (string * string * string) :=
  match s with
  | String c s' => if Ascii.eqb c "["%char then scan s' else None
  | EmptyString => None
  end.

Fixpoint findall_fuel (fuel : nat) (s : string) : list (string * string) :=
  match fuel with
  | O => []
  | S f =>
      match s with
      | EmptyString => []
      | String _ s' =>
          match match_at s with
          | Some (t, u, r) => (t, u) :: findall_fuel f r
          | None => findall_fuel f s'
          end
      end
  end.

(** [re.findall(pattern, s)]: every iteration consumes a character. *)
Definition findall (s : string) : list (string * string) :=
  findall_fuel (String.length s) s.

End LinkRe.

Module VizRe.
(** [r'!\[(.*?)\]\((.*?)\)\n\n\*(.*?)\*'] *)

(** [(.*?)\*] *)
Fixpoint cap_scan (s : string) : option (string * string) :=
  match s with
  | EmptyString => None
  | String c s' =>
      if Ascii.eqb c "*"%char then Some ("", s')
      else if is_nl c then None
      else match cap_scan s' with
           | Some (a, r) => Some (String c a, r)
           | None => None
           end
  end.

Definition close_lit : string := ")" ++ nl ++ nl ++ "*".

(** [\)\n\n\*(.*?)\*] *)
Definition after_url (s : string) : option (string * string) :=
  match strip_lit close_lit s with
  | Some s1 => cap_scan s1
  | None => None
  end.

(** [(.*?)\)\n\n\*(.*?)\*] *)
Fixpoint url_scan (s : string) : option (string * string * string) :=
  match after_url s with
  | Some (c, r) => Some ("", c, r)
  | None =>
      match s with
      | EmptyString => None
      | String d s' =>
          if is_nl d then None
          else match url_scan s' with
               | Some (u, c, r) => Some (String d u, c, r)
               | None => None
               end
      end
  end.

(** [\]\((.*?)\)\n\n\*(.*?)\*] *)
Definition after_title (s : string) : option (string * string * string) :=
  match strip_lit "](" s with
  | Some s1 => url_scan s1
  | None => None
  end.

(** [(.*?)\]\((.*?)\)\n\n\*(.*?)\*] *)
Fixpoint title_scan (s : string) : option (string * string * string * string) :=
  match after_title s with
  | Some (u, c, r) => Some ("", u, c, r)
  | None =>
      match s with
      | EmptyString => None
      | String d s' =>
          if is_nl d then None
          else match title_scan s' with
               | Some (t, u, c, r) => Some (String d t, u, c, r)
               | None => None
               end
      end
  end.

Definition match_at (s : string) : option (string * string * string * string) :=
  match strip_lit "![" s with
  | Some s' => title_scan s'
  | None => None
  end.

Fixpoint findall_fuel (fuel : nat) (s : string) : list (string * string * string) :=
  match fuel with
  | O => []
  | S f =>
      match s with
      | EmptyString => []
      | String _ s' =>
          match match_at s with
          | Some (t, u, c, r) => (t, u, c) :: findall_fuel f r
          | None => findall_fuel f s'
          end
      end
  end.

Definition findall (s : string) : list (string * string * string) :=
  findall_fuel (String.length s) s.

End VizRe.

(** ** [generate_final_answer] *)

(** The variables of the extraction loop. *)
Record Collected : Type := mkCollected {
  rag_result : string;
  web_result : string;
  snowflake_result : string;
  visualization_urls : list (string * string * string);
  web_links : list (string * string)
}.

Definition collected0 : Collected := mkCollected "" "" "" [] [].

(** One iteration of [for step in state["intermediate_steps"]]. *)
Definition collect_step (c : Collected) (step : AgentAction) : Collected :=
  if String.eqb (tool step) "rag_search_result" then
    mkCollected (log step) (web_result c) (snowflake_result c)
                (visualization_urls c) (web_links c)
  else if String.eqb (tool step) "web_search_result" then
    let w := log step in
    mkCollected (rag_result c) w (snowflake_result c)
                (visualization_urls c) (web_links c ++ LinkRe.findall w)%list
  else if String.eqb (tool step) "snowflake_search_result" then
    let s := log step in
    if contains "## Visualizations" s then
      let parts := py_split "## Visualizations" s in
      let viz_section := nth 1 parts "" in
      mkCollected (rag_result c) (web_result c) (nth 0 parts "")
                  (visualization_urls c ++ VizRe.findall viz_section)%list (web_links c)
    else
      mkCollected (rag_result c) (web_result c) s (visualization_urls c) (web_links c)
  else c.

Definition collect_results (steps : list AgentAction) : Collected :=
  fold_left collect_step steps collected0.

(** [final_response += "\n\n## Sources and References\n\n"] and its bullets. *)
Definition link_line (l : string * string) : string :=
  "- [" ++ fst l ++ "](" ++ snd l ++ ")" ++ nl.
Definition sources_section (links : list (string * string)) : string :=
  nl ++ nl ++ "## Sources and References" ++ nl ++ nl ++ String.concat "" (map link_line links).

(** [final_response += "\n\n## Visualizations\n\n"] and its blocks. *)
Definition viz_block (v : string * string * string) : string :=
  let '(t, u, c) := v in
  "![" ++ t ++ "](" ++ u ++ ")" ++ nl ++ nl ++ "*" ++ c ++ "*" ++ nl ++ nl.
Definition visualizations_section (vs : list (string * string * string)) : string :=
  nl ++ nl ++ "## Visualizations" ++ nl ++ nl ++ String.concat "" (map viz_block vs).

(** What the finalizer appends to the model's text. *)
Definition appended_sections (c : Collected) : string :=
  (match web_links c with [] => "" | ls => sources_section ls end)
  ++ (match visualization_urls c with [] => "" | vs => visualizations_section vs end).

Section Final.

Variable env : Env.

(** [generate_final_answer(state)]; the prompt template is selected by
    [mode] from the collected texts. *)
Definition generate_final_answer (st : ResearchState) : outcome ResearchState :=
  let c := collect_results (intermediate_steps st) in
  let query := input st in
  let response :=
    llm env (intermediate_steps st)
        (FinalPrompt (mode st) query (snowflake_result c) (rag_result c) (web_result c)) in
  let final_response := response ++ appended_sections c in
  let st' := append_step st (mkAction "final_answer_result" (TIQuery query) final_response) in
  Ok {| input := input st'; mode := mode st'; intermediate_steps := intermediate_steps st';
        metadata_filters := metadata_filters st'; output := Some final_response |}.

End Final.

(** ** The compiled graph ([initialize_research_graph]) *)

Inductive Node : Type := NOracle | NRag | NWeb | NSnow | NFinal | NEnd.

Definition node_eqb (a b : Node) : bool :=
  match a, b with
  | NOracle, NOracle | NRag, NRag | NWeb, NWeb | NSnow, NSnow
  | NFinal, NFinal | NEnd, NEnd => true
  | _, _ => false
  end.

(** The path map of [add_conditional_edges("oracle", router, {...})];
    any other value of the router is rejected by the graph. *)
Definition route_node (r : option string) : outcome Node :=
  match r with
  | Some "rag_search" => Ok NRag
  | Some "web_search" => Ok NWeb
  | Some "snowflake_search" => Ok NSnow
  | Some "final_answer" => Ok NFinal
  | _ => Raise "InvalidUpdateError: unknown branch"
  end.

Section Driver.

Variable env : Env.

Definition then_go (n : Node) (o : outcome ResearchState) : outcome (Node * ResearchState) :=
  match o with
  | Ok st => Ok (n, st)
  | Raise m => Raise m
  end.

(** One super-step: run the node, then follow its outgoing edge. *)
Definition step (n : Node) (st : ResearchState) : outcome (Node * ResearchState) :=
  match n with
  | NOracle =>
      match run_oracle env st with
      | Raise m => Raise m
      | Ok st' =>
          match route_node (router (StepsList (intermediate_steps st'))) with
          | Ok n' => Ok (n', st')
          | Raise m => Raise m
          end
      end
  | NRag => then_go NOracle (rag_search env st)
  | NWeb => then_go NOracle (web_search env st)
  | NSnow => then_go NOracle (snowflake_search env st)
  | NFinal => then_go NEnd (generate_final_answer env st)
  | NEnd => Ok (NEnd, st)
  end.

(** [graph.invoke(state)]: the configurations visited, in order, and the
    final state or the exception that escaped. [budget] is LangGraph's
    recursion limit. *)
Fixpoint run_graph (budget : nat) (n : Node) (st : ResearchState)
  : list (Node * ResearchState) * outcome ResearchState :=
  match n with
  | NEnd => ([(NEnd, st)], Ok st)
  | _ =>
      match budget with
      | O => ([(n, st)], Raise "GraphRecursionError")
      | S b =>
          match step n st with
          | Raise m => ([(n, st)], Raise m)
          | Ok (n', st') =>
              let (tr, r) := run_graph b n' st' in ((n, st) :: tr, r)
          end
      end
  end.

Definition recursion_limit : nat := 25.

Definition initial_state (query : string) (f : Filters) (m : string) : ResearchState :=
  {| input := query; mode := m; intermediate_steps := [];
     metadata_filters := f; output := None |}.

(** The [graph.invoke(state)] call of [run_research_graph]. *)
Definition invoke_graph (query : string) (f : Filters) (m : string)
  : list (Node * ResearchState) * outcome ResearchState :=
  run_graph recursion_limit NOracle (initial_state query f m).

End Driver.

(** Oracle decisions in a trace: the visits of the oracle node. *)
Definition oracle_decisions (tr : list (Node * ResearchState)) : nat :=
  List.length (filter (fun p => node_eqb (fst p) NOracle) tr).

(** The real tool names recorded in a history. *)
Definition real_tools_in (steps : list AgentAction) : list string :=
  filter (fun t => mem t all_tools) (map tool steps).


(** ** [run_research_graph] and the [/research] endpoint *)

Definition fallback_message : string :=
  "No comprehensive results available. Please try again with a different query.".

Fixpoint find_final_log (steps : list AgentAction) : option string :=
  match steps with
  | [] => None
  | a :: r => if String.eqb (tool a) "final_answer_result" then Some (log a) else find_final_log r
  end.

(** [run_research_graph(query, year_quarter_dict, mode)], also returning
    the configurations the graph went through. *)
Definition run_research_graph (env : Env) (query : string) (f : Filters) (m : string)
  : list (Node * ResearchState) * outcome string :=
  let (tr, r) := invoke_graph env query f m in
  (tr, match r with
       | Raise e => Raise e
       | Ok st =>
           match output st with
           | Some o => Ok o
           | None =>
               match find_final_log (intermediate_steps st) with
               | Some o => Ok o
               | None => Ok fallback_message
               end
           end
       end).

Record ResearchRequest : Type := mkRequest {
  req_query : string;
  req_year_quarter_dict : Filters;
  req_mode : string
}.

Inductive Response : Type :=
| RespError (error : string)
| RespResult (result : string) (mode : string).

Definition valid_modes : list string := ["pinecone"; "web_search"; "snowflake"; "combined"].

(** [not d or not any(d.values())]. *)
Definition no_quarter_selected (d : Filters) : bool :=
  match d with
  | [] => true
  | _ => negb (existsb (fun kv => match snd kv with [] => false | _ => true end) d)
  end.

(** [research_endpoint(request)]: the response, or the exception raised
    as an HTTP 500, and the configurations of the graph run it started
    (none when it returned before calling [run_research_graph]). *)
Definition research_endpoint (env : Env) (req : ResearchRequest)
  : outcome Response * list (Node * ResearchState) :=
  if negb (mem (req_mode req) valid_modes) then
    (Ok (RespError ("Invalid mode '" ++ req_mode req ++ "'. Must be one of: "
                    ++ py_join ", " valid_modes)), [])
  else if mem (req_mode req) ["pinecone"; "snowflake"; "combined"]
          && no_quarter_selected (req_year_quarter_dict req) then
    (Ok (RespError ("For " ++ req_mode req
                    ++ " search, at least one year and quarter must be selected")), [])
  else
    let (tr, r) := run_research_graph env (req_query req) (req_year_quarter_dict req) (req_mode req) in
    match r with
    | Ok res => (Ok (RespResult res (req_mode req)), tr)
    | Raise e => (Raise ("Error running research workflow: " ++ e), tr)
    end.

(** ** Sample environments and inputs *)

(** A run whose model picks [pinecone] first and then answers
    ["web_search."]; the final answer echoes the quarterly-report text. *)
Definition sample_env : Env :=
  mkEnv (fun _ p => match p with
                   | OraclePrompt _ => " Pinecone "
                   | NextToolPrompt _ _ _ => "web_search."
                   | FinalPrompt _ _ _ rag _ => rag
                   end)
        (fun l => l)
        (Ok tt)
        (fun _ _ _ => Ok "Revenue grew.")
        (fun _ => Ok (WebStatusOk [] [] "Shares rose."))
        (fun _ _ => Ok (mkSnow "Margins widened."
                               [mkViz "Revenue" "https://charts.s3.amazonaws.com/rev.png" ["REVENUE"]])).

Definition sample_filters : Filters := [("2024", ["1"])].

(** Selection and result Actions shaped as the code builds them. *)
Definition sample_sel (t : string) : AgentAction :=
  mkAction t (TIQueryFilters "q" sample_filters) ("Selected " ++ t ++ " based on mode: combined").
Definition sample_res (t log_text : string) : AgentAction :=
  mkAction t (TIQueryFilters "q" sample_filters) log_text.

Definition sample_state (m : string) (steps : list AgentAction) : ResearchState :=
  {| input := "q"; mode := m; intermediate_steps := steps;
     metadata_filters := sample_filters; output := None |}.

(** The specification's routing table. *)
Definition route_table : list (string * string) :=
  [("pinecone", "rag_search"); ("web_search", "web_search");
   ("snowflake", "snowflake_search"); ("final_answer", "final_answer")].

Fixpoint table_lookup (k : string) (tbl : list (string * string)) : option string :=
  match tbl with
  | [] => None
  | (k', v) :: r => if String.eqb k k' then Some v else table_lookup k r
  end.

(** The log of the last Action of a given tool in a history, [""] if
    there is none. *)
Definition last_log (k : string) (steps : list AgentAction) : string :=
  match rev (filter (fun a => String.eqb (tool a) k) steps) with
  | a :: _ => log a
  | [] => ""
  end.

(** The text of a Snowflake log with its visualization section cut off. *)
Definition snowflake_text (s : string) : string :=
  if contains "## Visualizations" s then nth 0 (py_split "## Visualizations" s) "" else s.

(** The result Action name each adapter records, the node each real tool
    is routed to, and the history of a sequence of tool cycles. *)
Definition result_tool (t : string) : string :=
  if String.eqb t "pinecone" then "rag_search_result"
  else if String.eqb t "web_search" then "web_search_result"
  else "snowflake_search_result".

Definition node_for (t : string) : Node :=
  if String.eqb t "pinecone" then NRag
  else if String.eqb t "web_search" then NWeb
  else if String.eqb t "snowflake" then NSnow
  else NFinal.

Definition pairs (ts : list string) : list string :=
  flat_map (fun t => [t; result_tool t]) ts.

(** What a run from the oracle guarantees, [k] tool cycles before the end. *)
Definition run_post (env : Env) (k : nat) (ts : list string)
  (p : list (Node * ResearchState) * outcome ResearchState) : Prop :=
  let (tr, res) := p in
  oracle_decisions tr <= S k /\
  Forall (fun c => NoDup (real_tools_in (intermediate_steps (snd c)))) tr /\
  (rag_ctor env = Ok tt ->
   exists st' ts', res = Ok st' /\ oracle_decisions tr = S k /\
     NoDup (ts ++ ts') /\ incl (ts ++ ts') all_tools /\ List.length (ts ++ ts') = 3 /\
     map tool (intermediate_steps st') =
       (pairs (ts ++ ts') ++ ["final_answer"; "final_answer_result"])%list).

Definition two_rag_state : ResearchState :=
  sample_state "pinecone"
    [sample_sel "pinecone"; sample_res "rag_search_result" "first report";
     sample_sel "pinecone"; sample_res "rag_search_result" "second report"].

Definition c3_state : ResearchState :=
  sample_state "combined" [sample_sel "pinecone"; sample_res "rag_search_result" "Revenue grew."].




(** Character conditions on strings. *)
Fixpoint str_forall (f : ascii -> bool) (s : string) : bool :=
  match s with
  | EmptyString => true
  | String c s' => f c && str_forall f s'
  end.

Definition no_nl : string -> bool := str_forall (fun c => negb (is_nl c)).
Definition cap_ok : string -> bool :=
  str_forall (fun d => negb (Ascii.eqb d "*"%char) && negb (is_nl d)).

(** A web link that the link pattern reads back from its own rendering
    [\[title\](url)], whatever follows it. *)
Definition link_good (l : string * string) : Prop :=
  forall R, LinkRe.scan (fst l ++ "](" ++ snd l ++ ")" ++ R) = Some (fst l, snd l, R).

(** The same for a visualization block [!\[title\](url)\n\n*caption*]. *)
Definition viz_good (v : string * string * string) : Prop :=
  let '(t, u, c) := v in
  forall R, VizRe.title_scan (t ++ "](" ++ u ++ VizRe.close_lit ++ c ++ "*" ++ R) = Some (t, u, c, R).

(** A Snowflake result carrying one chart, as [snowflake_search] logs it. *)
Definition chart_steps : list AgentAction :=
  [sample_res "snowflake_search_result"
     (snowflake_markdown (mkSnow "Margins widened."
        [mkViz "Revenue" "https://charts.s3.amazonaws.com/rev.png" ["REVENUE"]]))].

(** ============================================================ *)
(** * Theorems *)

Example link_re_example :
  LinkRe.findall ("see [Nvidia Q3](https://nv.com/q3) and [x](ftp://y) [a [b](http://c)")
  = [("Nvidia Q3", "https://nv.com/q3"); ("x](ftp://y) [a [b", "http://c")].
Proof. reflexivity. Qed.

Example viz_re_example :
  VizRe.findall ("![Rev](https://s3/r.png)" ++ nl ++ nl ++ "*Rev - A, B*" ++ nl ++ nl)
  = [("Rev", "https://s3/r.png", "Rev - A, B")].
Proof. reflexivity. Qed.

Example sample_combined_run :
  match invoke_graph sample_env "q" sample_filters "combined" with
  | (tr, Ok st) =>
      oracle_decisions tr = 4 /\
      map tool (intermediate_steps st) =
        ["pinecone"; "rag_search_result"; "snowflake"; "snowflake_search_result";
         "web_search"; "web_search_result"; "final_answer"; "final_answer_result"]
  | _ => False
  end.
Proof. vm_compute. split; reflexivity. Qed.

(** ** C10 *)

(** Claim C10: the normalization tests ["pinecone"], then ["web"], then
    ["snow"]: a string containing ["pinecone"] becomes [pinecone] whatever
    else it contains, and a string containing ["web"] but not
    ["pinecone"] becomes [web_search] whether or not it contains ["snow"]. *)
Theorem normalize_precedence : forall s : string,
  (contains "pinecone" s = true -> normalize s = "pinecone") /\
  (contains "pinecone" s = false -> contains "web" s = true -> normalize s = "web_search").
Proof.
  intro s; unfold normalize; split.
  - intros H; rewrite H; reflexivity.
  - intros H1 H2; rewrite H1, H2; reflexivity.
Qed.

Lemma normalize_precedence_witness :
  (contains "pinecone" "pinecone or web_search or snowflake" = true /\
   normalize "pinecone or web_search or snowflake" = "pinecone") /\
  (contains "pinecone" "web_search, then snowflake" = false /\
   contains "web" "web_search, then snowflake" = true /\
   normalize "web_search, then snowflake" = "web_search").
Proof.
  split.
  - split; [reflexivity|].
    apply (proj1 (normalize_precedence "pinecone or web_search or snowflake")).
    reflexivity.
  - split; [reflexivity|]. split; [reflexivity|].
    apply (proj2 (normalize_precedence "web_search, then snowflake")); reflexivity.
Defined.

(** ** C5 *)

Lemma router_snoc : forall l a,
  router (StepsList (l ++ [a])%list) = tool_to_node (tool a).
Proof.
  intros l a; unfold router.
  destruct (l ++ [a])%list eqn:E.
  - destruct l; discriminate.
  - rewrite <- E, last_last; reflexivity.
Qed.

Lemma tool_to_node_table : forall t, tool_to_node t = table_lookup t route_table.
Proof. intro t; reflexivity. Qed.

(** Claim C5 (counterexample): a history whose last tool name is not in
    the routing table is not routed to [final_answer]: the router returns
    [None]. *)
Lemma router_unrecognized_counterexample :
  router (StepsList [sample_res "rag_search_result" "text"]) = None /\
  router (StepsList [sample_res "rag_search_result" "text"]) <> Some "final_answer".
Proof. split; [reflexivity | discriminate]. Qed.

(** Claim C5 (amended): the router is a function of the last tool name
    only (equal last tools give equal routes), that name is looked up in
    the fixed table [pinecone -> rag_search, web_search -> web_search,
    snowflake -> snowflake_search, final_answer -> final_answer], an
    empty or non-list history gives [final_answer], and a last tool name
    outside the table gives [None]. *)
Theorem router_by_last_tool :
  router (StepsList []) = Some "final_answer" /\
  router StepsOther = Some "final_answer" /\
  (forall l a, router (StepsList (l ++ [a])%list) = table_lookup (tool a) route_table) /\
  (forall l1 a1 l2 a2, tool a1 = tool a2 ->
     router (StepsList (l1 ++ [a1])%list) = router (StepsList (l2 ++ [a2])%list)) /\
  (forall l a, table_lookup (tool a) route_table = None ->
     router (StepsList (l ++ [a])%list) = None).
Proof.
  split; [reflexivity|]. split; [reflexivity|].
  split; [intros; rewrite router_snoc; apply tool_to_node_table|].
  split.
  - intros l1 a1 l2 a2 H; rewrite !router_snoc, H; reflexivity.
  - intros l a H; rewrite router_snoc, tool_to_node_table; exact H.
Qed.

Lemma router_by_last_tool_witness :
  router (StepsList [sample_sel "pinecone"]) = router (StepsList [sample_res "pinecone" "x"]) /\
  router (StepsList [sample_res "rag_search_result" "x"]) = None.
Proof.
  destruct router_by_last_tool as (_ & _ & _ & Hdet & Hnone).
  split.
  - exact (Hdet [] (sample_sel "pinecone") [] (sample_res "pinecone" "x") eq_refl).
  - exact (Hnone [] (sample_res "rag_search_result" "x") eq_refl).
Defined.

(** ** C6 *)

Lemma collect_results_snoc : forall l a,
  collect_results (l ++ [a])%list = collect_step (collect_results l) a.
Proof. intros; unfold collect_results; rewrite fold_left_app; reflexivity. Qed.

Lemma last_log_snoc : forall k l a,
  last_log k (l ++ [a])%list = if String.eqb (tool a) k then log a else last_log k l.
Proof.
  intros k l a; unfold last_log.
  rewrite filter_app; simpl.
  destruct (String.eqb (tool a) k); simpl; [rewrite rev_unit | rewrite app_nil_r]; reflexivity.
Qed.


(** Claim C6 (counterexample): with two [rag_search_result] Actions the
    finalizer hands the model the log of the second one; with a model
    that echoes the quarterly-report text the answer is the second log. *)
Lemma finalizer_first_result_counterexample :
  rag_result (collect_results (intermediate_steps two_rag_state)) = "second report" /\
  match generate_final_answer sample_env two_rag_state with
  | Ok st => output st = Some "second report"
  | Raise _ => False
  end.
Proof. split; reflexivity. Qed.

(** Claim C6 (amended): the finalizer keeps the LAST result Action of each
    tool kind: the quarterly-report and web texts are the logs of the
    last [rag_search_result] and [web_search_result] Actions, the
    Snowflake text is the last [snowflake_search_result] log with its
    visualization section cut off, and links and charts are gathered
    from all result Actions of their kind, in history order. *)
Theorem finalizer_uses_last_result : forall steps,
  let c := collect_results steps in
  rag_result c = last_log "rag_search_result" steps /\
  web_result c = last_log "web_search_result" steps /\
  snowflake_result c = snowflake_text (last_log "snowflake_search_result" steps) /\
  web_links c = flat_map (fun a => if String.eqb (tool a) "web_search_result"
                                   then LinkRe.findall (log a) else []) steps /\
  visualization_urls c =
    flat_map (fun a => if String.eqb (tool a) "snowflake_search_result"
                          && contains "## Visualizations" (log a)
                       then VizRe.findall (nth 1 (py_split "## Visualizations" (log a)) "")
                       else []) steps.
Proof.
  intro steps; induction steps as [|a l IH] using rev_ind; [repeat split; reflexivity|].
  cbv zeta in *. destruct IH as (H1 & H2 & H3 & H4 & H5).
  rewrite collect_results_snoc, !last_log_snoc, !flat_map_app; simpl.
  rewrite !app_nil_r.
  unfold collect_step.
  destruct (String.eqb (tool a) "rag_search_result") eqn:Er;
  [apply String.eqb_eq in Er; rewrite Er; simpl
  |destruct (String.eqb (tool a) "web_search_result") eqn:Ew;
   [apply String.eqb_eq in Ew; rewrite Ew; simpl
   |destruct (String.eqb (tool a) "snowflake_search_result") eqn:Es; simpl;
    [destruct (contains "## Visualizations" (log a)) eqn:Ec; simpl|]]];
  repeat split; simpl;
  rewrite ?H1, ?H2, ?H3, ?H4, ?H5, ?app_nil_r; try reflexivity;
  unfold snowflake_text; rewrite ?Ec; reflexivity.
Qed.

(** ** C8 *)

Lemma mem_In : forall x l, mem x l = true <-> In x l.
Proof.
  intros x l; unfold mem; rewrite existsb_exists; split.
  - intros (y & Hy & E); apply String.eqb_eq in E; subst; exact Hy.
  - intros H; exists x; split; [exact H | apply String.eqb_refl].
Qed.

Lemma no_quarter_selected_true : forall d,
  d = [] \/ Forall (fun kv => snd kv = []) d -> no_quarter_selected d = true.
Proof.
  intros d [-> | H]; [reflexivity|].
  destruct d as [|kv d]; [reflexivity|].
  unfold no_quarter_selected. apply negb_true_iff.
  apply not_true_iff_false; intro E; apply existsb_exists in E as (x & Hx & Ex).
  rewrite Forall_forall in H; specialize (H x Hx); rewrite H in Ex; discriminate.
Qed.

(** Claim C8: a request whose mode is not one of [pinecone], [web_search],
    [snowflake], [combined], or a [pinecone]/[snowflake]/[combined]
    request whose [year_quarter_dict] is empty or maps every year to an
    empty list, gets an error response and the graph is never run (no
    configuration, hence no Action history). *)
Theorem research_rejects_invalid : forall (env : Env) (req : ResearchRequest),
  (~ In (req_mode req) valid_modes \/
   (In (req_mode req) ["pinecone"; "snowflake"; "combined"] /\
    (req_year_quarter_dict req = [] \/
     Forall (fun kv => snd kv = []) (req_year_quarter_dict req)))) ->
  exists msg, research_endpoint env req = (Ok (RespError msg), []).
Proof.
  intros env req H; unfold research_endpoint.
  destruct (mem (req_mode req) valid_modes) eqn:Ev; cbn [negb]; [|eexists; reflexivity].
  destruct H as [H | [Hm Hd]].
  - apply mem_In in Ev; contradiction.
  - apply mem_In in Hm; rewrite Hm, (no_quarter_selected_true _ Hd); cbn [andb].
    eexists; reflexivity.
Qed.

Lemma research_rejects_invalid_witness :
  (exists msg, research_endpoint sample_env (mkRequest "q" [] "pinecone") = (Ok (RespError msg), [])) /\
  (exists msg, research_endpoint sample_env (mkRequest "q" [("2024", [])] "combined") = (Ok (RespError msg), [])) /\
  (exists msg, research_endpoint sample_env (mkRequest "q" sample_filters "rag") = (Ok (RespError msg), [])).
Proof.
  split; [|split].
  - apply research_rejects_invalid. right. split; [simpl; auto | left; reflexivity].
  - apply research_rejects_invalid. right. split; [simpl; auto | right; repeat constructor].
  - apply research_rejects_invalid. left. simpl. intuition discriminate.
Defined.

(** ** C3 *)

Lemma match_nonempty : forall (A B : Type) (l : list A) (x y : B),
  l <> [] -> match l with [] => x | _ => y end = y.
Proof. intros A B l x y H; destruct l; [contradiction | reflexivity]. Qed.

Lemma perm_head : forall (l u : list string), Permutation l u -> u <> [] ->
  exists x r, l = x :: r /\ In x u.
Proof.
  intros l u Hp Hu; destruct l as [|x r].
  - apply Permutation_nil in Hp; contradiction.
  - exists x, r; split; [reflexivity|]. eapply Permutation_in; [exact Hp | left; reflexivity].
Qed.

Lemma unused_nonempty : forall used,
  List.length (used_real_tools used) < 3 -> unused_tools_of used <> [].
Proof.
  intros used H; unfold unused_tools_of, used_real_tools in *; simpl in *.
  destruct (mem "pinecone" used), (mem "snowflake" used), (mem "web_search" used);
    simpl in *; try discriminate; lia.
Qed.

Lemma unused_in_all : forall used x, In x (unused_tools_of used) -> In x all_tools.
Proof. intros used x H; unfold unused_tools_of in H; apply filter_In in H; tauto. Qed.

Lemma normalize_real : forall t, In t all_tools -> normalize t = t.
Proof. intros t H; simpl in H; intuition (subst; reflexivity). Qed.

Lemma validate_unused_in : forall env unused c,
  set_iter_ok env -> unused <> [] ->
  exists x r, set_iter env unused = x :: r /\
    validate_unused env unused c = Ok (if mem c unused then c else x) /\
    In (if mem c unused then c else x) unused.
Proof.
  intros env unused c Hperm Hne.
  destruct (perm_head _ _ (Hperm unused) Hne) as (x & r & E & Hx).
  exists x, r; split; [exact E|]; unfold validate_unused; rewrite E.
  destruct (mem c unused) eqn:Ec; split; try reflexivity; try exact Hx.
  apply mem_In; exact Ec.
Qed.

Lemma oracle_combined_choice : forall (env : Env) (st : ResearchState),
  set_iter_ok env -> mode st = "combined" ->
  let used := map tool (intermediate_steps st) in
  0 < List.length (used_real_tools used) < 3 ->
  let unused := unused_tools_of used in
  let raw := ask env (intermediate_steps st)
               (NextToolPrompt (input st) (set_iter env (used_real_tools used))
                               (set_iter env unused)) in
  exists x r, set_iter env unused = x :: r /\
    let chosen := if mem raw unused then raw else x in
    run_oracle env st = Ok (append_step st (selection_action st chosen)) /\
    In chosen unused.
Proof.
  intros env st Hperm Hm; cbv zeta; intros Hlen.
  destruct (validate_unused_in env (unused_tools_of (map tool (intermediate_steps st)))
              (ask env (intermediate_steps st)
                 (NextToolPrompt (input st)
                    (set_iter env (used_real_tools (map tool (intermediate_steps st))))
                    (set_iter env (unused_tools_of (map tool (intermediate_steps st))))))
              Hperm (unused_nonempty _ (proj2 Hlen)))
    as (x & r & Ex & Hv & Hin).
  exists x, r; split; [exact Ex|]. split; [|exact Hin].
  assert (Hne : map tool (intermediate_steps st) <> []).
  { intro E; rewrite E in Hlen; vm_compute in Hlen; lia. }
  assert (Hl : Nat.ltb (List.length (used_real_tools (map tool (intermediate_steps st)))) 3 = true)
    by (apply Nat.ltb_lt; lia).
  unfold run_oracle, oracle_choice.
  replace (mem (mode st) ["pinecone"; "web_search"; "snowflake"]) with false by (rewrite Hm; reflexivity).
  replace (String.eqb (mode st) "combined") with true by (rewrite Hm; reflexivity).
  rewrite (match_nonempty _ _ _ _ _ Hne), Hl, Hv.
  rewrite (normalize_real _ (unused_in_all _ _ Hin)); reflexivity.
Qed.


(** Claim C3 (counterexample): after [pinecone] has been used the model
    answers ["web_search."], whose normalization [web_search] is unused,
    yet the oracle selects [snowflake]: the membership test is made on
    the raw answer, before normalization, and fails. *)
Lemma oracle_fallback_counterexample :
  let raw := ask sample_env (intermediate_steps c3_state)
               (NextToolPrompt "q" ["pinecone"] ["snowflake"; "web_search"]) in
  raw = "web_search." /\
  unused_tools_of (map tool (intermediate_steps c3_state)) = ["snowflake"; "web_search"] /\
  In (normalize raw) ["snowflake"; "web_search"] /\
  run_oracle sample_env c3_state = Ok (append_step c3_state (selection_action c3_state "snowflake")) /\
  normalize raw <> "snowflake".
Proof. vm_compute. repeat split; try reflexivity; auto; discriminate. Qed.

(** Claim C3 (amended): in [combined] mode with one or two real tools
    used, the oracle tests whether the model's stripped, lower-cased
    answer is exactly an unused tool name; if not, it takes the first
    unused tool in set-iteration order; normalization comes afterwards
    and leaves that choice unchanged, so the selected tool is always
    unused. *)
Theorem oracle_combined_next : forall (env : Env) (st : ResearchState),
  set_iter_ok env -> mode st = "combined" ->
  let used := map tool (intermediate_steps st) in
  0 < List.length (used_real_tools used) < 3 ->
  let unused := unused_tools_of used in
  let raw := ask env (intermediate_steps st)
               (NextToolPrompt (input st) (set_iter env (used_real_tools used))
                               (set_iter env unused)) in
  exists x r, set_iter env unused = x :: r /\
    let chosen := if mem raw unused then raw else x in
    run_oracle env st = Ok (append_step st (selection_action st chosen)) /\
    In chosen unused.
Proof. exact oracle_combined_choice. Qed.

Lemma oracle_combined_next_witness :
  set_iter_ok sample_env /\ mode c3_state = "combined" /\
  0 < List.length (used_real_tools (map tool (intermediate_steps c3_state))) < 3 /\
  run_oracle sample_env c3_state = Ok (append_step c3_state (selection_action c3_state "snowflake")).
Proof.
  assert (Hp : set_iter_ok sample_env) by (intro l; apply Permutation_refl).
  split; [exact Hp|]. split; [reflexivity|].
  assert (Hl : 0 < List.length (used_real_tools (map tool (intermediate_steps c3_state))) < 3)
    by (vm_compute; lia).
  split; [exact Hl|].
  destruct (oracle_combined_next sample_env c3_state Hp eq_refl Hl) as (x & r & Ex & Hrun & _).
  vm_compute in Ex. injection Ex as <- <-. exact Hrun.
Defined.

(** ** The run of the graph *)

Lemma result_not_tool : forall t a, In t all_tools -> String.eqb t (result_tool a) = false.
Proof.
  intros t a Ht; unfold result_tool.
  destruct (String.eqb a "pinecone"), (String.eqb a "web_search");
    simpl in Ht; intuition (subst; reflexivity).
Qed.

Lemma mem_cons : forall x y l, mem x (y :: l) = String.eqb x y || mem x l.
Proof. reflexivity. Qed.

Lemma mem_pairs : forall ts t, In t all_tools -> mem t (pairs ts) = mem t ts.
Proof.
  induction ts as [|a ts IH]; intros t Ht; [reflexivity|].
  simpl pairs. rewrite !mem_cons, result_not_tool by exact Ht.
  simpl; rewrite IH by exact Ht; reflexivity.
Qed.

Lemma used_real_pairs : forall ts, used_real_tools (pairs ts) = used_real_tools ts.
Proof.
  intro ts; unfold used_real_tools; apply filter_ext_in.
  intros t Ht; apply mem_pairs, Ht.
Qed.

Lemma unused_pairs : forall ts, unused_tools_of (pairs ts) = unused_tools_of ts.
Proof. intro ts; unfold unused_tools_of; rewrite used_real_pairs; reflexivity. Qed.

Lemma all_tools_NoDup : NoDup all_tools.
Proof. repeat constructor; simpl; intuition discriminate. Qed.

Lemma used_real_length : forall ts, NoDup ts -> incl ts all_tools ->
  List.length (used_real_tools ts) = List.length ts.
Proof.
  intros ts Hnd Hin; apply Permutation_length, NoDup_Permutation.
  - apply NoDup_filter, all_tools_NoDup.
  - exact Hnd.
  - intro x; unfold used_real_tools; rewrite filter_In, mem_In.
    split; [tauto | intro H; split; [apply Hin, H | exact H]].
Qed.

Lemma In_unused : forall ts x, In x (unused_tools_of ts) -> In x all_tools /\ ~ In x ts.
Proof.
  intros ts x H; unfold unused_tools_of in H; apply filter_In in H as [Hx Hn].
  split; [exact Hx|]; intro Hts.
  assert (mem x (used_real_tools ts) = true).
  { apply mem_In; unfold used_real_tools; apply filter_In; split; [exact Hx | apply mem_In, Hts]. }
  rewrite H in Hn; discriminate.
Qed.

Lemma pairs_app : forall ts ts', pairs (ts ++ ts') = (pairs ts ++ pairs ts')%list.
Proof. intros; apply flat_map_app. Qed.

Lemma pairs_nonempty : forall ts, ts <> [] -> pairs ts <> [].
Proof. intros [|t ts] H; [contradiction | discriminate]. Qed.

Lemma intermediate_steps_append : forall st a,
  intermediate_steps (append_step st a) = (intermediate_steps st ++ [a])%list.
Proof. reflexivity. Qed.

Lemma steps_append : forall st a,
  map tool (intermediate_steps (append_step st a)) = (map tool (intermediate_steps st) ++ [tool a])%list.
Proof. intros; simpl; rewrite map_app; reflexivity. Qed.

Lemma tool_to_node_real : forall t, In t all_tools \/ t = "final_answer" ->
  route_node (tool_to_node t) = Ok (node_for t).
Proof. intros t [H | ->]; [simpl in H; intuition (subst; reflexivity) | reflexivity]. Qed.

(** The oracle's step once it has chosen a tool: the selection Action is
    appended and the router sends the run to that tool's node. *)
Lemma oracle_step_route : forall env st c,
  oracle_choice env st = Ok c ->
  In (normalize c) all_tools \/ normalize c = "final_answer" ->
  step env NOracle st = Ok (node_for (normalize c),
                            append_step st (selection_action st (normalize c))).
Proof.
  intros env st c Hc Ht; cbn [step]; unfold run_oracle; rewrite Hc.
  rewrite intermediate_steps_append, router_snoc; cbn [tool selection_action].
  rewrite (tool_to_node_real _ Ht); reflexivity.
Qed.

Lemma normalize_cases : forall c, In (normalize c) all_tools \/ normalize c = "final_answer".
Proof.
  intro c; unfold normalize.
  destruct (contains "pinecone" c); [left; simpl; auto|].
  destruct (contains "web" c); [left; simpl; auto|].
  destruct (contains "snow" c); [left; simpl; auto | right; reflexivity].
Qed.

Lemma oracle_first_step : forall env st,
  mode st = "combined" -> intermediate_steps st = [] ->
  let t := normalize (ask env [] (OraclePrompt (input st))) in
  step env NOracle st = Ok (node_for t, append_step st (selection_action st t)).
Proof.
  intros env st Hm Hs t; apply oracle_step_route; [|apply normalize_cases].
  unfold oracle_choice; rewrite Hs, Hm; reflexivity.
Qed.

Lemma oracle_mid_step : forall env st ts,
  set_iter_ok env -> mode st = "combined" ->
  map tool (intermediate_steps st) = pairs ts -> NoDup ts -> incl ts all_tools ->
  1 <= List.length ts < 3 ->
  exists t, In t all_tools /\ ~ In t ts /\
    step env NOracle st = Ok (node_for t, append_step st (selection_action st t)).
Proof.
  intros env st ts Hperm Hm Hs Hnd Hin Hlen.
  assert (Hl : 0 < List.length (used_real_tools (map tool (intermediate_steps st))) < 3)
    by (rewrite Hs, used_real_pairs, used_real_length by assumption; lia).
  destruct (oracle_combined_choice env st Hperm Hm Hl) as (x & r & _ & Hrun & Hx).
  cbv zeta in Hrun, Hx.
  set (chosen := if mem _ _ then _ else x) in Hrun, Hx.
  rewrite Hs, unused_pairs in Hx; apply In_unused in Hx as [Ha Hn].
  exists chosen; split; [exact Ha|]; split; [exact Hn|].
  cbn [step]; rewrite Hrun, intermediate_steps_append, router_snoc; cbn [tool selection_action].
  rewrite (tool_to_node_real _ (or_introl Ha)); reflexivity.
Qed.

Lemma oracle_last_step : forall env st ts,
  mode st = "combined" ->
  map tool (intermediate_steps st) = pairs ts -> NoDup ts -> incl ts all_tools ->
  List.length ts = 3 ->
  step env NOracle st = Ok (NFinal, append_step st (selection_action st "final_answer")).
Proof.
  intros env st ts Hm Hs Hnd Hin Hlen.
  change NFinal with (node_for (normalize "final_answer")).
  apply oracle_step_route; [|right; reflexivity].
  unfold oracle_choice; rewrite Hs, Hm; simpl mem; cbv iota beta.
  rewrite (match_nonempty _ _ _ _ _ (pairs_nonempty ts ltac:(intro E; subst; discriminate))).
  rewrite used_real_pairs, used_real_length by assumption; rewrite Hlen; reflexivity.
Qed.

Lemma last_tool_input_append : forall st a,
  last_tool_input (append_step st a) = Ok (tool_input a).
Proof. intros; unfold last_tool_input; rewrite intermediate_steps_append, rev_unit; reflexivity. Qed.

Lemma step_NRag : forall env st, step env NRag st = then_go NOracle (rag_search env st).
Proof. reflexivity. Qed.
Lemma step_NWeb : forall env st, step env NWeb st = then_go NOracle (web_search env st).
Proof. reflexivity. Qed.
Lemma step_NSnow : forall env st, step env NSnow st = then_go NOracle (snowflake_search env st).
Proof. reflexivity. Qed.

(** An adapter node run right after the oracle selected its tool: it
    appends one result Action and hands control back to the oracle,
    unless the Pinecone assistant cannot be built. *)
Lemma adapter_step : forall env st t,
  In t all_tools -> (t <> "pinecone" \/ rag_ctor env = Ok tt) ->
  let st1 := append_step st (selection_action st t) in
  exists lg, step env (node_for t) st1 =
    Ok (NOracle, append_step st1 (mkAction (result_tool t)
                                  (TIQueryFilters (input st) (metadata_filters st)) lg)).
Proof.
  intros env st t Ht Hc st1.
  subst st1; simpl in Ht; destruct Ht as [<- | [<- | [<- | []]]]; simpl node_for; simpl result_tool.
  - destruct Hc as [Hc | Hc]; [contradiction|].
    rewrite step_NRag; unfold rag_search; rewrite last_tool_input_append, Hc; eexists; reflexivity.
  - rewrite step_NSnow; unfold snowflake_search; rewrite last_tool_input_append; eexists; reflexivity.
  - rewrite step_NWeb; unfold web_search; rewrite last_tool_input_append; eexists; reflexivity.
Qed.

Lemma adapter_step_raise : forall env st m,
  rag_ctor env = Raise m ->
  step env (node_for "pinecone") (append_step st (selection_action st "pinecone")) = Raise m.
Proof.
  intros env st m Hc; simpl node_for.
  rewrite step_NRag; unfold rag_search; rewrite last_tool_input_append, Hc; reflexivity.
Qed.

Lemma final_step : forall env st,
  exists st', step env NFinal st = Ok (NEnd, st') /\
    intermediate_steps st' = (intermediate_steps st ++
      [mkAction "final_answer_result" (TIQuery (input st)) (match output st' with Some o => o | None => "" end)])%list /\
    mode st' = mode st.
Proof. intros env st; eexists; split; [reflexivity | split; reflexivity]. Qed.

Lemma run_graph_step : forall env b n st n' st',
  n <> NEnd -> step env n st = Ok (n', st') ->
  run_graph env (S b) n st = let (tr, r) := run_graph env b n' st' in ((n, st) :: tr, r).
Proof. intros env b n st n' st' Hn Hs; destruct n; try contradiction; cbn [run_graph]; rewrite Hs; reflexivity. Qed.

Lemma run_graph_raise : forall env b n st m,
  n <> NEnd -> step env n st = Raise m -> run_graph env (S b) n st = ([(n, st)], Raise m).
Proof. intros env b n st m Hn Hs; destruct n; try contradiction; cbn [run_graph]; rewrite Hs; reflexivity. Qed.

Lemma run_final : forall env b st,
  exists st', run_graph env (S b) NFinal st = ([(NFinal, st); (NEnd, st')], Ok st') /\
    map tool (intermediate_steps st') = (map tool (intermediate_steps st) ++ ["final_answer_result"])%list.
Proof.
  intros env b st; destruct (final_step env st) as (st' & Hs & Hsteps & _).
  exists st'; split.
  - rewrite (run_graph_step env b NFinal st NEnd st') by (discriminate || exact Hs).
    destruct b; reflexivity.
  - rewrite Hsteps, map_app; reflexivity.
Qed.

Lemma node_for_not_end : forall t, node_for t <> NEnd.
Proof.
  intro t; unfold node_for.
  destruct (String.eqb t "pinecone"), (String.eqb t "web_search"), (String.eqb t "snowflake"); discriminate.
Qed.


Lemma result_not_real : forall a, mem (result_tool a) all_tools = false.
Proof.
  intro a; unfold result_tool.
  destruct (String.eqb a "pinecone"), (String.eqb a "web_search"); reflexivity.
Qed.

Lemma real_names_pairs : forall ts, incl ts all_tools ->
  filter (fun t => mem t all_tools) (pairs ts) = ts.
Proof.
  induction ts as [|a ts IH]; intro Hin; [reflexivity|].
  simpl pairs; cbn [filter].
  rewrite (proj2 (mem_In a all_tools)) by (apply Hin; left; reflexivity).
  rewrite result_not_real, IH by (intros x Hx; apply Hin; right; exact Hx).
  reflexivity.
Qed.

Lemma real_tools_of : forall steps ts extra,
  map tool steps = (pairs ts ++ extra)%list -> incl ts all_tools ->
  real_tools_in steps = (ts ++ filter (fun t => mem t all_tools) extra)%list.
Proof.
  intros steps ts extra Hs Hin; unfold real_tools_in; rewrite Hs, filter_app, real_names_pairs by exact Hin.
  reflexivity.
Qed.

Lemma oracle_decisions_cons : forall n s tr,
  oracle_decisions ((n, s) :: tr) = (if node_eqb n NOracle then 1 else 0) + oracle_decisions tr.
Proof. intros n s tr; unfold oracle_decisions; simpl; destruct (node_eqb n NOracle); reflexivity. Qed.

Lemma node_for_not_oracle : forall t, node_eqb (node_for t) NOracle = false.
Proof.
  intro t; unfold node_for.
  destruct (String.eqb t "pinecone"), (String.eqb t "web_search"), (String.eqb t "snowflake"); reflexivity.
Qed.

Lemma NoDup_snoc : forall (ts : list string) t, NoDup ts -> ~ In t ts -> NoDup (ts ++ [t]).
Proof.
  intros ts t Hnd Hn; apply (Permutation_NoDup (Permutation_cons_append ts t)).
  constructor; assumption.
Qed.

Lemma incl_snoc : forall (ts : list string) t, incl ts all_tools -> In t all_tools -> incl (ts ++ [t]) all_tools.
Proof. intros ts t H1 H2 x Hx; apply in_app_or in Hx as [Hx | [<- | []]]; auto. Qed.

Lemma adapter_cycle : forall env k ts st b t,
  mode st = "combined" -> map tool (intermediate_steps st) = pairs ts ->
  NoDup ts -> incl ts all_tools -> In t all_tools -> ~ In t ts ->
  step env NOracle st = Ok (node_for t, append_step st (selection_action st t)) ->
  (forall st2, mode st2 = "combined" -> map tool (intermediate_steps st2) = pairs (ts ++ [t]) ->
     run_post env k (ts ++ [t]) (run_graph env b NOracle st2)) ->
  run_post env (S k) ts (run_graph env (S (S b)) NOracle st).
Proof.
  intros env k ts st b t Hm Hs Hnd Hin Ht Hnt Hstep IH.
  rewrite (run_graph_step env (S b) NOracle st _ _ ltac:(discriminate) Hstep).
  assert (Hs1 : map tool (intermediate_steps (append_step st (selection_action st t)))
                = (pairs ts ++ [t])%list)
    by (rewrite steps_append, Hs; reflexivity).
  assert (Hr0 : NoDup (real_tools_in (intermediate_steps st))).
  { rewrite (real_tools_of _ ts [] ltac:(rewrite app_nil_r; exact Hs) Hin), app_nil_r; exact Hnd. }
  assert (Hr1 : NoDup (real_tools_in (intermediate_steps (append_step st (selection_action st t))))).
  { rewrite (real_tools_of _ ts _ Hs1 Hin); cbn [filter].
    rewrite (proj2 (mem_In t all_tools) Ht); apply NoDup_snoc; assumption. }
  assert (Hcase : (t <> "pinecone" \/ rag_ctor env = Ok tt) \/
                  (t = "pinecone" /\ exists m, rag_ctor env = Raise m)).
  { destruct (String.eqb_spec t "pinecone") as [Ep|Ep]; [|left; left; exact Ep].
    destruct (rag_ctor env) as [[]|m]; [left; right; reflexivity | right; eauto]. }
  destruct Hcase as [Hc | (Ep & m & Ec)].
  2:{ subst t.
      rewrite (run_graph_raise env b _ _ m (node_for_not_end _) (adapter_step_raise env st m Ec)).
      unfold run_post; rewrite oracle_decisions_cons; cbn.
      split; [lia|]. split;
        [apply Forall_cons; [exact Hr0 | apply Forall_cons; [exact Hr1 | apply Forall_nil]]
        | intro E; rewrite Ec in E; discriminate E]. }
  destruct (adapter_step env st t Ht Hc) as [lg Hlg].
  set (st1 := append_step st (selection_action st t)) in *.
  set (st2 := append_step st1 (mkAction (result_tool t)
                (TIQueryFilters (input st) (metadata_filters st)) lg)) in *.
  rewrite (run_graph_step env b (node_for t) st1 NOracle st2 (node_for_not_end t) Hlg).
  assert (Hs2 : map tool (intermediate_steps st2) = pairs (ts ++ [t])).
  { unfold st2; rewrite steps_append, Hs1, pairs_app, <- app_assoc; reflexivity. }
  pose proof (IH st2 Hm Hs2) as IHr.
  destruct (run_graph env b NOracle st2) as [tr r].
  unfold run_post in *; destruct IHr as (Hd & Hf & Hok).
  rewrite !oracle_decisions_cons, node_for_not_oracle; cbn [node_eqb].
  split; [lia|]. split; [apply Forall_cons; [exact Hr0 | apply Forall_cons; [exact Hr1 | exact Hf]]|].
  intro Ec; destruct (Hok Ec) as (st' & ts' & Hr & Hd' & Hnd' & Hin' & Hl' & Hm').
  exists st', (t :: ts').
  assert (E : ((ts ++ [t]) ++ ts')%list = (ts ++ t :: ts')%list) by (rewrite <- app_assoc; reflexivity).
  rewrite E in Hnd', Hin', Hl', Hm'.
  repeat split; auto; lia.
Qed.

(** From the oracle, with the tools [ts] already used and [k] still
    unused, a [combined] run makes at most [k + 1] oracle decisions, every
    history it goes through records each real tool at most once, and,
    unless the Pinecone assistant cannot be built, it ends with every tool
    used once followed by [final_answer] and [final_answer_result]. *)
Lemma run_from_oracle : forall env, set_iter_ok env -> forall k ts st b,
  mode st = "combined" -> map tool (intermediate_steps st) = pairs ts ->
  NoDup ts -> incl ts all_tools -> 1 <= List.length ts -> List.length ts + k = 3 ->
  2 * k + 2 <= b -> run_post env k ts (run_graph env b NOracle st).
Proof.
  intros env Hperm k; induction k as [|k IH]; intros ts st b Hm Hs Hnd Hin H1 H3 Hb.
  - destruct b as [|[|b]]; [lia|lia|].
    rewrite (run_graph_step env (S b) NOracle st NFinal _ ltac:(discriminate)
               (oracle_last_step env st ts Hm Hs Hnd Hin ltac:(lia))).
    destruct (run_final env b (append_step st (selection_action st "final_answer")))
      as (st' & Hr & Ht).
    rewrite Hr; unfold run_post.
    assert (Hs1 : map tool (intermediate_steps (append_step st (selection_action st "final_answer")))
                  = (pairs ts ++ ["final_answer"])%list)
      by (rewrite steps_append, Hs; reflexivity).
    assert (Hs2 : map tool (intermediate_steps st') = (pairs ts ++ ["final_answer"; "final_answer_result"])%list)
      by (rewrite Ht, Hs1, <- app_assoc; reflexivity).
    split; [reflexivity|]. split.
    + repeat constructor; cbn [snd].
      * rewrite (real_tools_of _ ts [] ltac:(rewrite app_nil_r; exact Hs) Hin), app_nil_r; exact Hnd.
      * rewrite (real_tools_of _ ts _ Hs1 Hin); simpl; rewrite app_nil_r; exact Hnd.
      * rewrite (real_tools_of _ ts _ Hs2 Hin); simpl; rewrite app_nil_r; exact Hnd.
    + intros _; exists st', []; rewrite app_nil_r.
      repeat split; auto; lia.
  - destruct b as [|[|b]]; [lia|lia|].
    destruct (oracle_mid_step env st ts Hperm Hm Hs Hnd Hin ltac:(lia)) as (t & Ht & Hnt & Hstep).
    apply (adapter_cycle env k ts st b t Hm Hs Hnd Hin Ht Hnt Hstep).
    intros st2 Hm2 Hs2.
    assert (Hl : List.length (ts ++ [t]) = S (List.length ts)) by (rewrite length_app; simpl; lia).
    apply (IH (ts ++ [t])%list st2 b Hm2 Hs2 (NoDup_snoc ts t Hnd Hnt) (incl_snoc ts t Hin Ht));
      lia.
Qed.






(** What a whole [combined] run guarantees. *)
Lemma combined_run : forall env query f, set_iter_ok env ->
  let (tr, res) := invoke_graph env query f "combined" in
  oracle_decisions tr <= 4 /\
  Forall (fun c => NoDup (real_tools_in (intermediate_steps (snd c)))) tr /\
  (rag_ctor env = Ok tt ->
   exists st' ts, res = Ok st' /\ oracle_decisions tr = S (List.length ts) /\
     NoDup ts /\ incl ts all_tools /\ (ts = [] \/ List.length ts = 3) /\
     map tool (intermediate_steps st') = (pairs ts ++ ["final_answer"; "final_answer_result"])%list).
Proof.
  intros env query f Hp; unfold invoke_graph, recursion_limit.
  set (st0 := initial_state query f "combined").
  pose proof (oracle_first_step env st0 eq_refl eq_refl) as Hstep; cbv zeta in Hstep.
  destruct (normalize_cases (ask env [] (OraclePrompt (input st0)))) as [Ht | Hf].
  - set (t := normalize (ask env [] (OraclePrompt (input st0)))) in *.
    assert (H := adapter_cycle env 2 [] st0 23 t eq_refl eq_refl (NoDup_nil _)
                   (fun x (Hx : In x []) => match Hx with end) Ht (fun Hx => Hx) Hstep
                   (fun st2 Hm2 Hs2 => run_from_oracle env Hp 2 [t] st2 23 Hm2 Hs2
                      (NoDup_snoc [] t (NoDup_nil _) (fun Hx : In t [] => Hx))
                      (incl_snoc [] t (fun x (Hx : In x []) => match Hx with end) Ht)
                      ltac:(simpl; lia) ltac:(simpl; lia) ltac:(lia))).
    destruct (run_graph env 25 NOracle st0) as [tr res].
    unfold run_post in H; destruct H as (Hd & Hf & Hok).
    split; [lia|]. split; [exact Hf|].
    intro Ec; destruct (Hok Ec) as (st' & ts' & Hr & Hd' & Hnd & Hin & Hl & Hm).
    exists st', ts'; simpl in Hl; repeat split; auto; lia.
  - rewrite Hf in Hstep; change (node_for "final_answer") with NFinal in Hstep.
    rewrite (run_graph_step env 24 NOracle st0 _ _ ltac:(discriminate) Hstep).
    destruct (run_final env 23 (append_step st0 (selection_action st0 "final_answer")))
      as (st' & Hr & Hts).
    rewrite Hr, !oracle_decisions_cons; cbn [node_eqb oracle_decisions].
    assert (Hs' : map tool (intermediate_steps st') = ["final_answer"; "final_answer_result"])
      by (rewrite Hts, steps_append; reflexivity).
    split; [cbn; lia|]. split.
    + repeat apply Forall_cons; try apply Forall_nil; cbn [snd]; unfold real_tools_in;
        [ | rewrite steps_append | rewrite Hs' ]; cbn; constructor.
    + intros _; exists st', []; repeat split; auto; try (intros x []); try constructor.
Qed.



Lemma sample_iter_ok : set_iter_ok sample_env.
Proof. intro l; apply Permutation_refl. Qed.




(** C2: in a [combined] run, whatever the LLM answers, every history
    the run passes through records each real tool ([pinecone],
    [web_search], [snowflake]) at most once; only the oracle's
    selection Actions carry these names. *)
Theorem combined_no_repeat : forall env query f, set_iter_ok env ->
  Forall (fun c => NoDup (real_tools_in (intermediate_steps (snd c))))
         (fst (invoke_graph env query f "combined")).
Proof.
  intros env query f Hp.
  pose proof (combined_run env query f Hp) as H.
  destruct (invoke_graph env query f "combined") as [tr res].
  exact (proj1 (proj2 H)).
Qed.

Lemma combined_no_repeat_witness :
  set_iter_ok sample_env /\
  Forall (fun c => NoDup (real_tools_in (intermediate_steps (snd c))))
         (fst (invoke_graph sample_env "q" sample_filters "combined")).
Proof.
  split; [intro l; simpl; apply Permutation_refl|].
  apply (combined_no_repeat sample_env "q" sample_filters).
  intro l; simpl; apply Permutation_refl.
Defined.







(** ** Reading back the appended sections *)

Lemma sapp_assoc : forall a b c : string, (a ++ b) ++ c = a ++ b ++ c.
Proof. induction a as [|x a IH]; intros b c; simpl; [reflexivity | rewrite IH; reflexivity]. Qed.

Lemma sapp_nil_r : forall a : string, a ++ "" = a.
Proof. induction a as [|x a IH]; simpl; [reflexivity | rewrite IH; reflexivity]. Qed.

Lemma slen_app : forall a b : string, String.length (a ++ b) = String.length a + String.length b.
Proof. induction a as [|x a IH]; intro b; simpl; [reflexivity | rewrite IH; reflexivity]. Qed.

Lemma sapp_nil_inv : forall x r : string, x ++ r = r -> x = "".
Proof.
  intros x r H; apply (f_equal String.length) in H; rewrite slen_app in H.
  destruct x; [reflexivity | simpl in H; lia].
Qed.

Lemma str_forall_app : forall f a b,
  str_forall f (a ++ b) = str_forall f a && str_forall f b.
Proof. induction a as [|x a IH]; intro b; simpl; [reflexivity | rewrite IH, andb_assoc; reflexivity]. Qed.

Lemma strip_lit_shape : forall lit s s', strip_lit lit s = Some s' -> s = lit ++ s'.
Proof.
  induction lit as [|c l IH]; intros s s' H; [injection H as <-; reflexivity|].
  destruct s as [|d s]; [discriminate|]; cbn in H.
  destruct (Ascii.eqb c d) eqn:E; [|discriminate].
  apply Ascii.eqb_eq in E; subst d; rewrite (IH s s' H); reflexivity.
Qed.

Lemma strip_lit_app : forall lit R, strip_lit lit (lit ++ R) = Some R.
Proof. induction lit as [|c l IH]; intro R; [reflexivity|]; cbn; rewrite Ascii.eqb_refl; apply IH. Qed.

(** A literal without [)] is decided before the first [)] of the text. *)
Lemma strip_close : forall lit q,
  str_forall (fun c => negb (Ascii.eqb c ")"%char)) lit = true ->
  (forall R, strip_lit lit (q ++ ")" ++ R) = None) \/
  (exists q', forall R, strip_lit lit (q ++ ")" ++ R) = Some (q' ++ ")" ++ R)).
Proof.
  induction lit as [|c l IH]; intros q H; [right; exists q; reflexivity|].
  cbn in H; apply andb_prop in H as [Hc Hl]; apply negb_true_iff in Hc.
  destruct q as [|d q].
  - left; intro R; cbn; rewrite Hc; reflexivity.
  - destruct (Ascii.eqb c d) eqn:E.
    + destruct (IH q Hl) as [H1 | (q' & H1)].
      * left; intro R; cbn; rewrite E; apply H1.
      * right; exists q'; intro R; cbn; rewrite E; apply H1.
    + left; intro R; cbn; rewrite E; reflexivity.
Qed.

Lemma span_close : forall q, exists a q', forall R,
  LinkRe.span_url (q ++ ")" ++ R) = (a, q' ++ ")" ++ R).
Proof.
  induction q as [|d q IH]; [exists "", ""; reflexivity|].
  destruct IH as (a & q' & H).
  destruct (LinkRe.url_char d) eqn:E.
  - exists (String d a), q'; intro R.
    change (String d q ++ ")" ++ R) with (String d (q ++ ")" ++ R)).
    cbn [LinkRe.span_url]; rewrite E, H; reflexivity.
  - exists "", (String d q); intro R.
    change (String d q ++ ")" ++ R) with (String d (q ++ ")" ++ R)).
    cbn [LinkRe.span_url]; rewrite E; reflexivity.
Qed.

Lemma span_shape : forall s a b, LinkRe.span_url s = (a, b) -> s = a ++ b.
Proof.
  induction s as [|d s IH]; intros a b H; [injection H as <- <-; reflexivity|].
  cbn [LinkRe.span_url] in H; destruct (LinkRe.url_char d).
  - destruct (LinkRe.span_url s) as [a' b'] eqn:E; injection H as <- <-.
    rewrite (IH a' b' eq_refl); reflexivity.
  - injection H as <- <-; reflexivity.
Qed.

Lemma proto_close : forall q,
  (forall R, LinkRe.proto (q ++ ")" ++ R) = None) \/
  (exists p q', forall R, LinkRe.proto (q ++ ")" ++ R) = Some (p, q' ++ ")" ++ R)).
Proof.
  intro q; unfold LinkRe.proto.
  destruct (strip_close "https://" q eq_refl) as [H1 | (q1 & H1)].
  - destruct (strip_close "http://" q eq_refl) as [H2 | (q2 & H2)].
    + left; intro R; rewrite H1, H2; reflexivity.
    + right; exists "http://", q2; intro R; rewrite H1, H2; reflexivity.
  - right; exists "https://", q1; intro R; rewrite H1; reflexivity.
Qed.

Lemma proto_shape : forall s p s', LinkRe.proto s = Some (p, s') -> s = p ++ s'.
Proof.
  intros s p s' H; unfold LinkRe.proto in H.
  destruct (strip_lit "https://" s) eqn:E1.
  - injection H as <- <-; apply strip_lit_shape; exact E1.
  - destruct (strip_lit "http://" s) eqn:E2; [|discriminate].
    injection H as <- <-; apply strip_lit_shape; exact E2.
Qed.

(** The tail [\]\((https?://[^\s\)]+)\)] read at a text ending in [)]
    does not look past that [)]. *)
Lemma tail_close : forall q,
  (forall R, LinkRe.tail (q ++ ")" ++ R) = None) \/
  (exists u x, forall R, LinkRe.tail (q ++ ")" ++ R) = Some (u, x ++ R)).
Proof.
  intro q; unfold LinkRe.tail.
  destruct (strip_close "](" q eq_refl) as [H1 | (q1 & H1)].
  - left; intro R; rewrite H1; reflexivity.
  - destruct (proto_close q1) as [H2 | (p & q2 & H2)].
    + left; intro R; rewrite H1; lazy beta iota; rewrite H2; reflexivity.
    + destruct (span_close q2) as (a & q3 & H3).
      destruct a as [|ca a'].
      * left; intro R; rewrite H1; lazy beta iota; rewrite H2; lazy beta iota; rewrite H3; reflexivity.
      * destruct q3 as [|c q4].
        -- right; exists (p ++ String ca a'), ""; intro R.
           rewrite H1; lazy beta iota; rewrite H2; lazy beta iota; rewrite H3; reflexivity.
        -- destruct (Ascii.eqb c ")"%char) eqn:Ec.
           ++ right; exists (p ++ String ca a'), (q4 ++ ")"); intro R.
              rewrite H1; lazy beta iota; rewrite H2; lazy beta iota; rewrite H3; cbn [append].
              rewrite Ec, sapp_assoc; reflexivity.
           ++ left; intro R.
              rewrite H1; lazy beta iota; rewrite H2; lazy beta iota; rewrite H3; cbn [append].
              rewrite Ec; reflexivity.
Qed.

Lemma tail_shape : forall s u r, LinkRe.tail s = Some (u, r) -> s = "](" ++ u ++ ")" ++ r.
Proof.
  intros s u r H; unfold LinkRe.tail in H.
  destruct (strip_lit "](" s) as [s1|] eqn:E1; [|discriminate].
  apply strip_lit_shape in E1.
  destruct (LinkRe.proto s1) as [[p s2]|] eqn:E2; [|discriminate].
  apply proto_shape in E2.
  destruct (LinkRe.span_url s2) as [a s3] eqn:E3.
  apply span_shape in E3.
  destruct a as [|ca a']; [discriminate|].
  destruct s3 as [|c s4]; [discriminate|].
  destruct (Ascii.eqb c ")"%char) eqn:Ec; [|discriminate].
  apply Ascii.eqb_eq in Ec; subst c.
  injection H as <- <-; subst; rewrite !sapp_assoc; reflexivity.
Qed.

Lemma link_scan_eq : forall s, LinkRe.scan s =
  match LinkRe.tail s with
  | Some (u, r) => Some ("", u, r)
  | None =>
      match s with
      | EmptyString => None
      | String c s' =>
          if is_nl c then None
          else match LinkRe.scan s' with
               | Some (t, u, r) => Some (String c t, u, r)
               | None => None
               end
      end
  end.
Proof. destruct s; reflexivity. Qed.

Lemma link_scan_good : forall s t u r, LinkRe.scan s = Some (t, u, r) ->
  s = t ++ "](" ++ u ++ ")" ++ r /\ link_good (t, u).
Proof.
  induction s as [|c s IH]; intros t u r H; [discriminate|].
  rewrite link_scan_eq in H.
  destruct (LinkRe.tail (String c s)) as [[u0 r0]|] eqn:Et.
  - injection H as <- -> ->.
    pose proof (tail_shape _ _ _ Et) as Hs.
    split; [exact Hs|]. intro R; cbn [fst snd].
    rewrite Hs, <- (sapp_assoc "](" u) in Et.
    change ("" ++ "](" ++ u ++ ")" ++ R) with ("](" ++ u ++ ")" ++ R).
    rewrite <- (sapp_assoc "](" u).
    destruct (tail_close ("](" ++ u)) as [H1 | (u' & x & H1)]; [rewrite H1 in Et; discriminate|].
    rewrite H1 in Et; injection Et as -> Ex; apply sapp_nil_inv in Ex; subst x.
    rewrite link_scan_eq, H1; reflexivity.
  - destruct (is_nl c) eqn:En; [discriminate|].
    destruct (LinkRe.scan s) as [[[t' u'] r']|] eqn:Es; [|discriminate].
    injection H as <- -> ->.
    destruct (IH t' u r eq_refl) as [Hs HR].
    split; [rewrite Hs; reflexivity|].
    intro R; cbn [fst snd].
    assert (Hq : forall X, (String c t' ++ "](" ++ u ++ ")" ++ X) = (String c t' ++ "](" ++ u) ++ ")" ++ X)
      by (intro X; rewrite !sapp_assoc; reflexivity).
    rewrite Hq, link_scan_eq.
    destruct (tail_close (String c t' ++ "](" ++ u)) as [H1 | (u0 & x & H1)].
    + rewrite H1, <- Hq.
      change (String c t' ++ "](" ++ u ++ ")" ++ R) with (String c (t' ++ "](" ++ u ++ ")" ++ R)).
      lazy beta iota; rewrite En.
      specialize (HR R); cbn [fst snd] in HR; rewrite HR; reflexivity.
    + rewrite Hs in Et.
      change (String c (t' ++ "](" ++ u ++ ")" ++ r)) with (String c t' ++ "](" ++ u ++ ")" ++ r) in Et.
      rewrite Hq, H1 in Et; discriminate.
Qed.

Lemma link_match_at_good : forall s t u r, LinkRe.match_at s = Some (t, u, r) ->
  s = "[" ++ t ++ "](" ++ u ++ ")" ++ r /\ link_good (t, u).
Proof.
  intros s t u r H; destruct s as [|c s']; [discriminate|].
  unfold LinkRe.match_at in H.
  destruct (Ascii.eqb c "["%char) eqn:E; [|discriminate].
  apply Ascii.eqb_eq in E; subst c.
  destruct (link_scan_good _ _ _ _ H) as [Hs Hg]; rewrite Hs; split; [reflexivity | exact Hg].
Qed.

Lemma link_match_open : forall t u R, link_good (t, u) ->
  LinkRe.match_at (String "[" (t ++ "](" ++ u ++ ")" ++ R)) = Some (t, u, R).
Proof. intros t u R H; unfold LinkRe.match_at; lazy beta iota; rewrite Ascii.eqb_refl; apply H. Qed.

Lemma link_fuel : forall f g s, String.length s <= f -> String.length s <= g ->
  LinkRe.findall_fuel f s = LinkRe.findall_fuel g s.
Proof.
  induction f as [|f IH]; intros g s Hf Hg.
  - destruct s; [destruct g; reflexivity | simpl in Hf; lia].
  - destruct g as [|g]; [destruct s; [reflexivity | simpl in Hg; lia]|].
    destruct s as [|c s']; [reflexivity|]; cbn [LinkRe.findall_fuel].
    destruct (LinkRe.match_at (String c s')) as [[[t u] r]|] eqn:E.
    + apply link_match_at_good in E as [Hs _].
      assert (Hl : String.length r < String.length (String c s'))
        by (rewrite Hs, !slen_app; simpl; lia).
      f_equal; apply IH; lia.
    + apply IH; simpl in Hf, Hg; lia.
Qed.

Lemma link_findall_skip : forall c s, Ascii.eqb c "["%char = false ->
  LinkRe.findall (String c s) = LinkRe.findall s.
Proof. intros c s H; unfold LinkRe.findall; cbn [String.length LinkRe.findall_fuel LinkRe.match_at]; rewrite H; reflexivity. Qed.

Lemma link_findall_match : forall s t u r, LinkRe.match_at s = Some (t, u, r) ->
  LinkRe.findall s = (t, u) :: LinkRe.findall r.
Proof.
  intros s t u r H; destruct s as [|c s']; [discriminate|].
  unfold LinkRe.findall at 1; cbn [String.length LinkRe.findall_fuel]; rewrite H; f_equal.
  apply link_match_at_good in H as [Hs _].
  assert (Hl : String.length r < String.length (String c s')) by (rewrite Hs, !slen_app; simpl; lia).
  apply link_fuel; simpl in Hl; lia.
Qed.

Lemma link_findall_prefix : forall p s,
  str_forall (fun c => negb (Ascii.eqb c "["%char)) p = true ->
  LinkRe.findall (p ++ s) = LinkRe.findall s.
Proof.
  induction p as [|c p IH]; intros s H; [reflexivity|].
  cbn [str_forall] in H; apply andb_prop in H as [Hc Hp]; apply negb_true_iff in Hc.
  change (String c p ++ s) with (String c (p ++ s)); rewrite link_findall_skip by exact Hc.
  apply IH, Hp.
Qed.

Lemma link_findall_line : forall t u rest, link_good (t, u) ->
  LinkRe.findall (link_line (t, u) ++ rest) = (t, u) :: LinkRe.findall rest.
Proof.
  intros t u rest H.
  assert (E : link_line (t, u) ++ rest
              = String "-" (String " " (String "[" (t ++ "](" ++ u ++ ")" ++ (nl ++ rest)))))
    by (unfold link_line; cbn [fst snd]; rewrite !sapp_assoc; reflexivity).
  rewrite E, !link_findall_skip by reflexivity.
  rewrite (link_findall_match _ t u (nl ++ rest) (link_match_open t u _ H)).
  unfold nl; cbn [append]; rewrite link_findall_skip by reflexivity; reflexivity.
Qed.

Lemma concat_empty_cons : forall x l, String.concat "" (x :: l) = x ++ String.concat "" l.
Proof. intros x [|y l]; [simpl; rewrite sapp_nil_r; reflexivity | reflexivity]. Qed.

Lemma link_findall_sources : forall ls, Forall link_good ls ->
  LinkRe.findall (sources_section ls) = ls.
Proof.
  intros ls H; unfold sources_section.
  do 5 (rewrite link_findall_prefix by reflexivity).
  induction ls as [|[t u] ls IH]; [reflexivity|].
  inversion H as [|? ? Hg Hr]; subst.
  cbn [map]; rewrite concat_empty_cons, link_findall_line by exact Hg.
  rewrite IH by exact Hr; reflexivity.
Qed.

Lemma link_findall_good : forall f s, Forall link_good (LinkRe.findall_fuel f s).
Proof.
  induction f as [|f IH]; intro s; [constructor|].
  destruct s as [|c s']; [constructor|]; cbn [LinkRe.findall_fuel].
  destruct (LinkRe.match_at (String c s')) as [[[t u] r]|] eqn:E; [|apply IH].
  constructor; [exact (proj2 (link_match_at_good _ _ _ _ E)) | apply IH].
Qed.

Lemma viz_cap_shape : forall s c r, VizRe.cap_scan s = Some (c, r) ->
  s = c ++ "*" ++ r /\ cap_ok c = true.
Proof.
  induction s as [|d s IH]; intros c r H; [discriminate|].
  cbn [VizRe.cap_scan] in H.
  destruct (Ascii.eqb d "*"%char) eqn:E1.
  - injection H as <- <-; apply Ascii.eqb_eq in E1; subst d; split; reflexivity.
  - destruct (is_nl d) eqn:E2; [discriminate|].
    destruct (VizRe.cap_scan s) as [[a r']|] eqn:Es; [|discriminate].
    injection H as <- ->.
    destruct (IH a r eq_refl) as [-> Hc]; split; [reflexivity|].
    unfold cap_ok in *; cbn [str_forall]; rewrite E1, E2; exact Hc.
Qed.

Lemma viz_cap_exact : forall c R, cap_ok c = true -> VizRe.cap_scan (c ++ "*" ++ R) = Some (c, R).
Proof.
  induction c as [|d c IH]; intros R H; [reflexivity|].
  unfold cap_ok in H; cbn [str_forall] in H.
  apply andb_prop in H as [Hd Hc]; apply andb_prop in Hd as [H1 H2].
  apply negb_true_iff in H1; apply negb_true_iff in H2.
  change (String d c ++ "*" ++ R) with (String d (c ++ "*" ++ R)); cbn [VizRe.cap_scan].
  rewrite H1, H2, IH by exact Hc; reflexivity.
Qed.

Lemma viz_after_url_exact : forall c R, cap_ok c = true ->
  VizRe.after_url (VizRe.close_lit ++ c ++ "*" ++ R) = Some (c, R).
Proof. intros c R H; unfold VizRe.after_url; rewrite strip_lit_app; apply viz_cap_exact, H. Qed.

Lemma viz_after_url_shape : forall s c r, VizRe.after_url s = Some (c, r) ->
  s = VizRe.close_lit ++ c ++ "*" ++ r /\ cap_ok c = true.
Proof.
  intros s c r H; unfold VizRe.after_url in H.
  destruct (strip_lit VizRe.close_lit s) as [s1|] eqn:E; [|discriminate].
  apply strip_lit_shape in E; destruct (viz_cap_shape _ _ _ H) as [-> Hc].
  split; [exact E | exact Hc].
Qed.

Lemma viz_after_url_none : forall d e x, is_nl e = false ->
  VizRe.after_url (String d (String e x)) = None.
Proof.
  intros d e x H; unfold VizRe.after_url, VizRe.close_lit, nl; cbn [append strip_lit].
  destruct (Ascii.eqb ")"%char d); [|reflexivity].
  unfold is_nl in H; rewrite Ascii.eqb_sym, H; reflexivity.
Qed.

Lemma viz_url_scan_eq : forall s, VizRe.url_scan s =
  match VizRe.after_url s with
  | Some (c, r) => Some ("", c, r)
  | None =>
      match s with
      | EmptyString => None
      | String d s' =>
          if is_nl d then None
          else match VizRe.url_scan s' with
               | Some (u, c, r) => Some (String d u, c, r)
               | None => None
               end
      end
  end.
Proof. destruct s; reflexivity. Qed.

Lemma viz_title_scan_eq : forall s, VizRe.title_scan s =
  match VizRe.after_title s with
  | Some (u, c, r) => Some ("", u, c, r)
  | None =>
      match s with
      | EmptyString => None
      | String d s' =>
          if is_nl d then None
          else match VizRe.title_scan s' with
               | Some (t, u, c, r) => Some (String d t, u, c, r)
               | None => None
               end
      end
  end.
Proof. destruct s; reflexivity. Qed.

Lemma viz_head_not_nl : forall x c R, no_nl x = true ->
  exists e y, x ++ VizRe.close_lit ++ c ++ "*" ++ R = String e y /\ is_nl e = false.
Proof.
  intros [|e x] c R H; [exists ")"%char; eexists; split; reflexivity|].
  unfold no_nl in H; cbn [str_forall] in H; apply andb_prop in H as [He _].
  apply negb_true_iff in He; exists e; eexists; split; [reflexivity | exact He].
Qed.

(** The lazy url group stops at the first [)\n\n*]: a url without a
    newline is read back whole. *)
Lemma viz_url_exact : forall x c R, no_nl x = true -> cap_ok c = true ->
  VizRe.url_scan (x ++ VizRe.close_lit ++ c ++ "*" ++ R) = Some (x, c, R).
Proof.
  induction x as [|d x IH]; intros c R Hx Hc.
  - change ("" ++ VizRe.close_lit ++ c ++ "*" ++ R) with (VizRe.close_lit ++ c ++ "*" ++ R).
    rewrite viz_url_scan_eq, viz_after_url_exact by exact Hc; reflexivity.
  - unfold no_nl in Hx; cbn [str_forall] in Hx; apply andb_prop in Hx as [Hd Hx'].
    apply negb_true_iff in Hd.
    change (String d x ++ VizRe.close_lit ++ c ++ "*" ++ R)
      with (String d (x ++ VizRe.close_lit ++ c ++ "*" ++ R)).
    rewrite viz_url_scan_eq.
    destruct (viz_head_not_nl x c R Hx') as (e & y & Exy & He).
    rewrite Exy, viz_after_url_none by exact He; rewrite <- Exy.
    lazy beta iota; rewrite Hd, IH by assumption; reflexivity.
Qed.

Lemma viz_url_shape : forall s u c r, VizRe.url_scan s = Some (u, c, r) ->
  s = u ++ VizRe.close_lit ++ c ++ "*" ++ r /\ no_nl u = true /\ cap_ok c = true.
Proof.
  induction s as [|d s IH]; intros u c r H; [discriminate|].
  rewrite viz_url_scan_eq in H.
  destruct (VizRe.after_url (String d s)) as [[c0 r0]|] eqn:Ea.
  - injection H as <- -> ->.
    destruct (viz_after_url_shape _ _ _ Ea) as [Hs Hc]; split; [exact Hs | split; [reflexivity | exact Hc]].
  - destruct (is_nl d) eqn:En; [discriminate|].
    destruct (VizRe.url_scan s) as [[[u' c'] r']|] eqn:Es; [|discriminate].
    injection H as <- -> ->.
    destruct (IH u' c r eq_refl) as (Hs & Hu & Hc).
    split; [rewrite Hs; reflexivity|]. split; [|exact Hc].
    unfold no_nl in *; cbn [str_forall]; rewrite En; exact Hu.
Qed.

Lemma viz_after_title_shape : forall s u c r, VizRe.after_title s = Some (u, c, r) ->
  s = "](" ++ u ++ VizRe.close_lit ++ c ++ "*" ++ r /\ no_nl u = true /\ cap_ok c = true.
Proof.
  intros s u c r H; unfold VizRe.after_title in H.
  destruct (strip_lit "](" s) as [s1|] eqn:E; [|discriminate].
  apply strip_lit_shape in E; destruct (viz_url_shape _ _ _ _ H) as (-> & Hu & Hc).
  split; [exact E | split; assumption].
Qed.

Lemma viz_after_title_exact : forall u c R, no_nl u = true -> cap_ok c = true ->
  VizRe.after_title ("](" ++ u ++ VizRe.close_lit ++ c ++ "*" ++ R) = Some (u, c, R).
Proof. intros u c R Hu Hc; unfold VizRe.after_title; rewrite strip_lit_app; apply viz_url_exact; assumption. Qed.

(** Whether [\]\(] followed by the rest of a block matches at a title
    position does not depend on the text after the block. *)
Lemma viz_after_title_cases : forall d t u c,
  no_nl t = true -> no_nl u = true -> cap_ok c = true ->
  (forall R, VizRe.after_title (String d (t ++ "](" ++ u ++ VizRe.close_lit ++ c ++ "*" ++ R)) = None) \/
  (forall R, VizRe.after_title (String d (t ++ "](" ++ u ++ VizRe.close_lit ++ c ++ "*" ++ R)) <> None).
Proof.
  intros d t u c Ht Hu Hc; unfold VizRe.after_title.
  destruct (Ascii.eqb "]"%char d) eqn:Ed.
  - destruct t as [|e t'].
    + left; intro R; cbn [append strip_lit]; rewrite Ed; reflexivity.
    + destruct (Ascii.eqb "("%char e) eqn:Ee.
      * right; intro R.
        change (String e t' ++ "](" ++ u ++ VizRe.close_lit ++ c ++ "*" ++ R)
          with (String e (t' ++ "](" ++ u ++ VizRe.close_lit ++ c ++ "*" ++ R)).
        cbn [strip_lit]; rewrite Ed, Ee.
        unfold no_nl in Ht; cbn [str_forall] in Ht; apply andb_prop in Ht as [_ Ht'].
        rewrite <- (sapp_assoc "](" u), <- (sapp_assoc t' ("](" ++ u)).
        rewrite viz_url_exact; [discriminate| |exact Hc].
        unfold no_nl in Hu |- *; rewrite !str_forall_app, Ht', Hu; reflexivity.
      * left; intro R.
        change (String e t' ++ "](" ++ u ++ VizRe.close_lit ++ c ++ "*" ++ R)
          with (String e (t' ++ "](" ++ u ++ VizRe.close_lit ++ c ++ "*" ++ R)).
        cbn [strip_lit]; rewrite Ed, Ee; reflexivity.
  - left; intro R; cbn [strip_lit]; rewrite Ed; reflexivity.
Qed.

Lemma viz_title_good : forall s t u c r, VizRe.title_scan s = Some (t, u, c, r) ->
  s = t ++ "](" ++ u ++ VizRe.close_lit ++ c ++ "*" ++ r /\
  no_nl t = true /\ no_nl u = true /\ cap_ok c = true /\ viz_good (t, u, c).
Proof.
  induction s as [|d s IH]; intros t u c r H; [discriminate|].
  rewrite viz_title_scan_eq in H.
  destruct (VizRe.after_title (String d s)) as [[[u0 c0] r0]|] eqn:Ea.
  - injection H as <- -> -> ->.
    destruct (viz_after_title_shape _ _ _ _ Ea) as (Hs & Hu & Hc).
    split; [exact Hs|]. split; [reflexivity|]. split; [exact Hu|]. split; [exact Hc|].
    unfold viz_good; intro R.
    change ("" ++ "](" ++ u ++ VizRe.close_lit ++ c ++ "*" ++ R)
      with ("](" ++ u ++ VizRe.close_lit ++ c ++ "*" ++ R).
    rewrite viz_title_scan_eq, viz_after_title_exact by assumption; reflexivity.
  - destruct (is_nl d) eqn:En; [discriminate|].
    destruct (VizRe.title_scan s) as [[[[t' u'] c'] r']|] eqn:Es; [|discriminate].
    injection H as <- -> -> ->.
    destruct (IH t' u c r eq_refl) as (Hs & Ht & Hu & Hc & HR).
    split; [rewrite Hs; reflexivity|].
    split; [unfold no_nl in *; cbn [str_forall]; rewrite En; exact Ht|].
    split; [exact Hu|]. split; [exact Hc|].
    unfold viz_good in HR |- *; intro R.
    change (String d t' ++ "](" ++ u ++ VizRe.close_lit ++ c ++ "*" ++ R)
      with (String d (t' ++ "](" ++ u ++ VizRe.close_lit ++ c ++ "*" ++ R)).
    rewrite viz_title_scan_eq.
    destruct (viz_after_title_cases d t' u c Ht Hu Hc) as [HN | HS].
    + rewrite HN; lazy beta iota; rewrite En, (HR R); reflexivity.
    + exfalso; rewrite Hs in Ea; exact (HS r Ea).
Qed.

Lemma viz_match_at_good : forall s t u c r, VizRe.match_at s = Some (t, u, c, r) ->
  s = "![" ++ t ++ "](" ++ u ++ VizRe.close_lit ++ c ++ "*" ++ r /\ viz_good (t, u, c).
Proof.
  intros s t u c r H; unfold VizRe.match_at in H.
  destruct (strip_lit "![" s) as [s1|] eqn:E; [|discriminate].
  apply strip_lit_shape in E.
  destruct (viz_title_good _ _ _ _ _ H) as (Hs & _ & _ & _ & Hg).
  rewrite E, Hs; split; [reflexivity | exact Hg].
Qed.

Lemma viz_fuel : forall f g s, String.length s <= f -> String.length s <= g ->
  VizRe.findall_fuel f s = VizRe.findall_fuel g s.
Proof.
  induction f as [|f IH]; intros g s Hf Hg.
  - destruct s; [destruct g; reflexivity | simpl in Hf; lia].
  - destruct g as [|g]; [destruct s; [reflexivity | simpl in Hg; lia]|].
    destruct s as [|d s']; [reflexivity|]; cbn [VizRe.findall_fuel].
    destruct (VizRe.match_at (String d s')) as [[[[t u] c] r]|] eqn:E.
    + apply viz_match_at_good in E as [Hs _].
      assert (Hl : String.length r < String.length (String d s'))
        by (rewrite Hs, !slen_app; simpl; lia).
      f_equal; apply IH; lia.
    + apply IH; simpl in Hf, Hg; lia.
Qed.

Lemma viz_findall_skip : forall d s, Ascii.eqb "!"%char d = false ->
  VizRe.findall (String d s) = VizRe.findall s.
Proof.
  intros d s H; unfold VizRe.findall; cbn [String.length VizRe.findall_fuel].
  unfold VizRe.match_at; cbn [strip_lit]; rewrite H; reflexivity.
Qed.

Lemma viz_findall_match : forall s t u c r, VizRe.match_at s = Some (t, u, c, r) ->
  VizRe.findall s = (t, u, c) :: VizRe.findall r.
Proof.
  intros s t u c r H; destruct s as [|d s']; [discriminate|].
  unfold VizRe.findall at 1; cbn [String.length VizRe.findall_fuel]; rewrite H; f_equal.
  apply viz_match_at_good in H as [Hs _].
  assert (Hl : String.length r < String.length (String d s')) by (rewrite Hs, !slen_app; simpl; lia).
  apply viz_fuel; simpl in Hl; lia.
Qed.

Lemma viz_findall_prefix : forall p s,
  str_forall (fun d => negb (Ascii.eqb "!"%char d)) p = true ->
  VizRe.findall (p ++ s) = VizRe.findall s.
Proof.
  induction p as [|d p IH]; intros s H; [reflexivity|].
  cbn [str_forall] in H; apply andb_prop in H as [Hd Hp]; apply negb_true_iff in Hd.
  change (String d p ++ s) with (String d (p ++ s)); rewrite viz_findall_skip by exact Hd.
  apply IH, Hp.
Qed.

Lemma viz_findall_block : forall t u c rest, viz_good (t, u, c) ->
  VizRe.findall (viz_block (t, u, c) ++ rest) = (t, u, c) :: VizRe.findall rest.
Proof.
  intros t u c rest H.
  assert (E : viz_block (t, u, c) ++ rest
              = "![" ++ (t ++ "](" ++ u ++ VizRe.close_lit ++ c ++ "*" ++ (nl ++ nl ++ rest)))
    by (unfold viz_block, VizRe.close_lit; rewrite !sapp_assoc; reflexivity).
  rewrite E.
  rewrite (viz_findall_match _ t u c (nl ++ nl ++ rest))
    by (unfold VizRe.match_at; rewrite strip_lit_app; apply H).
  unfold nl; cbn [append]; rewrite !viz_findall_skip by reflexivity; reflexivity.
Qed.

Lemma viz_findall_section : forall vs, Forall viz_good vs ->
  VizRe.findall (visualizations_section vs) = vs.
Proof.
  intros vs H; unfold visualizations_section.
  do 5 (rewrite viz_findall_prefix by reflexivity).
  induction vs as [|[[t u] c] vs IH]; [reflexivity|].
  inversion H as [|? ? Hg Hr]; subst.
  cbn [map]; rewrite concat_empty_cons, viz_findall_block by exact Hg.
  rewrite IH by exact Hr; reflexivity.
Qed.

Lemma viz_findall_good : forall f s, Forall viz_good (VizRe.findall_fuel f s).
Proof.
  induction f as [|f IH]; intro s; [constructor|].
  destruct s as [|d s']; [constructor|]; cbn [VizRe.findall_fuel].
  destruct (VizRe.match_at (String d s')) as [[[[t u] c] r]|] eqn:E; [|apply IH].
  constructor; [exact (proj2 (viz_match_at_good _ _ _ _ _ E)) | apply IH].
Qed.

(** Every link and every visualization the extraction loop collects is
    read back from its own rendering. *)
Lemma collect_good : forall steps c,
  Forall link_good (web_links c) -> Forall viz_good (visualization_urls c) ->
  Forall link_good (web_links (fold_left collect_step steps c)) /\
  Forall viz_good (visualization_urls (fold_left collect_step steps c)).
Proof.
  induction steps as [|a steps IH]; intros c H1 H2; [split; assumption|].
  cbn [fold_left]; apply IH; unfold collect_step;
    repeat match goal with |- context [if ?b then _ else _] => destruct b end;
    cbv zeta; cbn [web_links visualization_urls]; try assumption;
    apply Forall_app; split; try assumption;
    first [apply link_findall_good | apply viz_findall_good].
Qed.

(** C9 (as the code behaves).  The link pattern also matches the
    [\[title\](url)] inside every [!\[title\](url)] block of the
    Visualizations section: run over what the finalizer appended for a
    Snowflake result with one chart, it finds a web link although no web
    link was appended. *)
Lemma appended_links_counterexample :
  web_links (collect_results chart_steps) = [] /\
  LinkRe.findall (appended_sections (collect_results chart_steps))
    = [("Revenue", "https://charts.s3.amazonaws.com/rev.png")].
Proof. split; vm_compute; reflexivity. Qed.

(** C9 (amended): for every history, the link pattern run over the
    Sources and References section that [generate_final_answer] appends
    finds exactly the collected web links, and the visualization pattern
    run over the appended Visualizations section finds exactly the
    collected visualizations. *)
Theorem sections_read_back : forall steps,
  LinkRe.findall (sources_section (web_links (collect_results steps)))
    = web_links (collect_results steps) /\
  VizRe.findall (visualizations_section (visualization_urls (collect_results steps)))
    = visualization_urls (collect_results steps).
Proof.
  intro steps; unfold collect_results.
  destruct (collect_good steps collected0 (Forall_nil _) (Forall_nil _)) as [H1 H2].
  split; [apply link_findall_sources, H1 | apply viz_findall_section, H2].
Qed.
